(** * BaseDevice: the interpreter and the spooler

    A shallow embedding of [BaseDevice.py] (classes [Interpreter] and
    [Spooler]) and the properties of its tick, its holds, its command
    dispatch, its property register and its queue.

    Python objects are dynamically typed, so the embedding carries a small
    universe of values.  Methods that mutate [self] are state transformers
    that may raise: a raised exception keeps the mutations done before it. *)

From Stdlib Require Import ZArith QArith List String Bool Lia.
Import ListNotations.
Local Open Scope string_scope.
Local Open Scope list_scope.
Local Open Scope Z_scope.

(** ** Values and exceptions *)

Inductive exn : Type :=
| AttributeError
| TypeError
| ValueError
| IndexError
| StopIteration
| OverflowError
| OtherError.

(** The three mode transitions, as a callable may ask for them. *)
Inductive mode_call : Type := ToRapid | ToProgram | ToFinished.

(** Floats are carried by their rational value (no arithmetic is ever done
    on them here, only comparisons and stores); NaN and the infinities are
    outside the universe.

    Callables come in two kinds.  [VFunc] is a function of the outside
    world that leaves the interpreter and the spooler alone: all that is
    seen of it is that it was called, and what it returns or raises.
    [VBound] is a callable that calls back into the interpreter it is
    given to (a bound method such as [ensure_program_mode], or a function
    that calls several): what it calls is listed, in order. *)
#[local] Set Warnings "-register-all".
Inductive value : Type :=
| VNone
| VBool (b : bool)
| VInt (z : Z)
| VFloat (q : Q)
| VStr (s : string)
| VTuple (vs : list value)
| VFunc (name : string) (out : outcome)   (* a callable and what calling it does *)
| VJob (yields : list value)              (* an object whose generate() gives a fresh iterator *)
| VIter (rest : list value)               (* a started iterator and what it has left *)
| VObject (id : nat)                      (* anything else *)
| VList (vs : list value)
| VBound (name : string) (does : list deed) (out : outcome)
with outcome : Type :=
| Returns (v : value)
| Throws (e : exn)
with deed : Type :=
| DoEnsure (m : mode_call)                (* ensure_rapid_mode() and the like *)
| DoSetProp (mask : Z)                    (* set_prop(mask) *)
| DoUnsetProp (mask : Z)                  (* unset_prop(mask) *)
| DoToggleProp (mask : Z)                 (* toggle_prop(mask) *)
| DoJob (args : list value)               (* context.spooler.job(...) *)
| DoSetState (z : Z).                     (* a plain write to the state attribute *)

Inductive result (A : Type) : Type :=
| Ok (a : A)
| Raise (e : exn).
Arguments Ok {A} a.
Arguments Raise {A} e.

(** [isinstance(v, int)]: bool is a subclass of int. *)
Definition as_int (v : value) : option Z :=
  match v with
  | VInt z => Some z
  | VBool b => Some (Z.b2z b)
  | _ => None
  end.

(** The numeric value of an int, a bool or a float. *)
Definition as_number (v : value) : option Q :=
  match v with
  | VInt z => Some (inject_Z z)
  | VBool b => Some (inject_Z (Z.b2z b))
  | VFloat q => Some q
  | _ => None
  end.

(** [v == k] for an int constant [k]. *)
Definition py_eq (v : value) (k : Z) : bool :=
  match as_number v with
  | Some q => Qeq_bool q (inject_Z k)
  | None => false
  end.

Definition Qgt_bool (a b : Q) : bool := negb (Qle_bool a b).

(** ** Holds

    A hold is a zero-argument predicate of the outside world.  Its answer
    may differ from one evaluation to the next, so it is carried as the
    function from the number of earlier evaluations to the answer, with
    that number. *)

Inductive answer : Type :=
| Says (b : bool)
| Fails (e : exn).

Record Hold : Type := mkHold {
  pred : nat -> answer;
  calls : nat
}.

Definition ask (h : Hold) : answer * Hold :=
  (pred h (calls h), mkHold (pred h) (S (calls h))).

(** ** Events seen by the outside world *)

Inductive event : Type :=
| Signal (name : value) (args : list value)   (* context.signal(name, *args) *)
| Status (x y speed power : value)            (* the 'interpreter;status' text, by its four fields *)
| Stopped                                      (* context.stop() *)
| Beep
| Called (name : string).

(** ** State *)

Record LaserSettings : Type := mkSettings {
  speed : value;
  power : value;
  d_ratio : value;
  acceleration : value;
  raster_step : value;
  overscan : value;
  laser_enabled : bool
}.

(** The context with the spooler attached to it: [queue] is
    [context.spooler._queue]. *)
Record Context : Type := mkContext {
  current_x : value;
  current_y : value;
  opt_rapid_between : value;
  opt_jog_mode : value;
  opt_jog_minimum : value;
  quit : bool;
  queue : list value;
  emitted : list event
}.

Record Interpreter : Type := mkInterpreter {
  context : Context;
  settings : LaserSettings;
  spooled_item : value;
  holds : list Hold;
  temp_holds : list (option Hold);
  state : Z;
  properties : Z;
  is_relative : bool;
  laser : bool;
  rapid : value;
  jog_attr : value;          (* the instance attribute self.jog, which hides the method *)
  next_run : option value
}.

Definition INTERPRETER_STATE_RAPID : Z := 0.
Definition INTERPRETER_STATE_FINISH : Z := 1.
Definition INTERPRETER_STATE_PROGRAM : Z := 2.
Definition INTERPRETER_STATE_MODECHANGE : Z := 3.

(** *** Field updates *)

Definition with_context (c : Context) (i : Interpreter) : Interpreter :=
  mkInterpreter c (settings i) (spooled_item i) (holds i) (temp_holds i)
                (state i) (properties i) (is_relative i) (laser i) (rapid i)
                (jog_attr i) (next_run i).

Definition with_settings (s : LaserSettings) (i : Interpreter) : Interpreter :=
  mkInterpreter (context i) s (spooled_item i) (holds i) (temp_holds i)
                (state i) (properties i) (is_relative i) (laser i) (rapid i)
                (jog_attr i) (next_run i).

Definition with_spooled_item (v : value) (i : Interpreter) : Interpreter :=
  mkInterpreter (context i) (settings i) v (holds i) (temp_holds i)
                (state i) (properties i) (is_relative i) (laser i) (rapid i)
                (jog_attr i) (next_run i).

Definition with_holds (h : list Hold) (i : Interpreter) : Interpreter :=
  mkInterpreter (context i) (settings i) (spooled_item i) h (temp_holds i)
                (state i) (properties i) (is_relative i) (laser i) (rapid i)
                (jog_attr i) (next_run i).

Definition with_temp_holds (t : list (option Hold)) (i : Interpreter) : Interpreter :=
  mkInterpreter (context i) (settings i) (spooled_item i) (holds i) t
                (state i) (properties i) (is_relative i) (laser i) (rapid i)
                (jog_attr i) (next_run i).

Definition with_state (s : Z) (i : Interpreter) : Interpreter :=
  mkInterpreter (context i) (settings i) (spooled_item i) (holds i) (temp_holds i)
                s (properties i) (is_relative i) (laser i) (rapid i)
                (jog_attr i) (next_run i).

Definition with_properties (p : Z) (i : Interpreter) : Interpreter :=
  mkInterpreter (context i) (settings i) (spooled_item i) (holds i) (temp_holds i)
                (state i) p (is_relative i) (laser i) (rapid i)
                (jog_attr i) (next_run i).

Definition with_is_relative (b : bool) (i : Interpreter) : Interpreter :=
  mkInterpreter (context i) (settings i) (spooled_item i) (holds i) (temp_holds i)
                (state i) (properties i) b (laser i) (rapid i)
                (jog_attr i) (next_run i).

Definition with_laser (b : bool) (i : Interpreter) : Interpreter :=
  mkInterpreter (context i) (settings i) (spooled_item i) (holds i) (temp_holds i)
                (state i) (properties i) (is_relative i) b (rapid i)
                (jog_attr i) (next_run i).

Definition with_rapid_jog (r j : value) (i : Interpreter) : Interpreter :=
  mkInterpreter (context i) (settings i) (spooled_item i) (holds i) (temp_holds i)
                (state i) (properties i) (is_relative i) (laser i) r j (next_run i).

Definition with_next_run (t : value) (i : Interpreter) : Interpreter :=
  mkInterpreter (context i) (settings i) (spooled_item i) (holds i) (temp_holds i)
                (state i) (properties i) (is_relative i) (laser i) (rapid i)
                (jog_attr i) (Some t).

Definition with_position (x y : value) (c : Context) : Context :=
  mkContext x y (opt_rapid_between c) (opt_jog_mode c) (opt_jog_minimum c)
            (quit c) (queue c) (emitted c).

Definition with_queue (q : list value) (c : Context) : Context :=
  mkContext (current_x c) (current_y c) (opt_rapid_between c) (opt_jog_mode c)
            (opt_jog_minimum c) (quit c) q (emitted c).

Definition emit (e : event) (c : Context) : Context :=
  mkContext (current_x c) (current_y c) (opt_rapid_between c) (opt_jog_mode c)
            (opt_jog_minimum c) (quit c) (queue c) (emitted c ++ [e]).

Definition with_speed (v : value) (s : LaserSettings) : LaserSettings :=
  mkSettings v (power s) (d_ratio s) (acceleration s) (raster_step s) (overscan s)
             (laser_enabled s).

Definition with_power (v : value) (s : LaserSettings) : LaserSettings :=
  mkSettings (speed s) v (d_ratio s) (acceleration s) (raster_step s) (overscan s)
             (laser_enabled s).

Definition with_d_ratio (v : value) (s : LaserSettings) : LaserSettings :=
  mkSettings (speed s) (power s) v (acceleration s) (raster_step s) (overscan s)
             (laser_enabled s).

Definition with_acceleration (v : value) (s : LaserSettings) : LaserSettings :=
  mkSettings (speed s) (power s) (d_ratio s) v (raster_step s) (overscan s)
             (laser_enabled s).

Definition with_raster_step (v : value) (s : LaserSettings) : LaserSettings :=
  mkSettings (speed s) (power s) (d_ratio s) (acceleration s) v (overscan s)
             (laser_enabled s).

Definition with_overscan (v : value) (s : LaserSettings) : LaserSettings :=
  mkSettings (speed s) (power s) (d_ratio s) (acceleration s) (raster_step s) v
             (laser_enabled s).

Definition with_laser_enabled (b : bool) (s : LaserSettings) : LaserSettings :=
  mkSettings (speed s) (power s) (d_ratio s) (acceleration s) (raster_step s)
             (overscan s) b.

(** ** Methods as state transformers that may raise *)

Definition M (A : Type) : Type := Interpreter -> result A * Interpreter.

Definition ret {A} (a : A) : M A := fun st => (Ok a, st).

Definition raise {A} (e : exn) : M A := fun st => (Raise e, st).

Definition bind {A B} (m : M A) (k : A -> M B) : M B :=
  fun st =>
    match m st with
    | (Ok a, st') => k a st'
    | (Raise e, st') => (Raise e, st')
    end.

Definition modify (f : Interpreter -> Interpreter) : M unit :=
  fun st => (Ok tt, f st).

Definition gets {A} (f : Interpreter -> A) : M A :=
  fun st => (Ok (f st), st).

(** [try: m except <catch>: h] *)
Definition try_except {A} (m : M A) (catch : exn -> bool) (h : M A) : M A :=
  fun st =>
    match m st with
    | (Raise e, st') => if catch e then h st' else (Raise e, st')
    | r => r
    end.

Definition lift {A} (r : result A) : M A := fun st => (r, st).

Declare Scope py_scope.
Delimit Scope py_scope with py.
Notation "x <- m ;; k" := (bind m (fun x => k))
  (at level 100, m at next level, right associativity) : py_scope.
Notation "m ;; k" := (bind m (fun _ => k))
  (at level 100, right associativity) : py_scope.
Local Open Scope py_scope.

Definition is_AttributeError (e : exn) : bool :=
  match e with AttributeError => true | _ => false end.

Definition is_StopIteration (e : exn) : bool :=
  match e with StopIteration => true | _ => false end.

Definition is_TypeError (e : exn) : bool :=
  match e with TypeError => true | _ => false end.

(** [context.signal(...)], [context.stop()] and the like. *)
Definition publish (e : event) : M unit :=
  modify (fun st => with_context (emit e (context st)) st).

(** [x, y = values] *)
Definition unpack2 (values : list value) : M (value * value) :=
  match values with
  | [x; y] => ret (x, y)
  | _ => raise ValueError
  end.

(** [values[n]] *)
Definition item (values : list value) (n : nat) : M value :=
  match nth_error values n with
  | Some v => ret v
  | None => raise IndexError
  end.

(** [v > bound] and [v <= bound] against a numeric constant. *)
Definition py_gt (v : value) (bound : Q) : M bool :=
  match as_number v with
  | Some q => ret (Qgt_bool q bound)
  | None => raise TypeError
  end.

Definition py_le (v : value) (bound : Q) : M bool :=
  match as_number v with
  | Some q => ret (Qle_bool q bound)
  | None => raise TypeError
  end.

(** A method that this class does not define: the attribute lookup fails
    before any argument is evaluated. *)
Definition no_such_method : M unit := raise AttributeError.

(** ** The command handlers of [Interpreter] *)

Definition laser_off : M unit := modify (with_laser false).

Definition laser_on : M unit := modify (with_laser true).

Definition laser_disable : M unit :=
  modify (fun st => with_settings (with_laser_enabled false (settings st)) st).

Definition laser_enable : M unit :=
  modify (fun st => with_settings (with_laser_enabled true (settings st)) st).

Definition set_current (x y : value) : M unit :=
  modify (fun st => with_context (with_position x y (context st)) st).

(** The method [jog] of the class.  No call reaches it: [__init__] binds the
    instance attribute [self.jog] to the jog-mode setting, and [self.jog(...)]
    finds that attribute first. *)
Definition jog (x y : value) (mode : Z) (min_jog : value) : M unit := set_current x y.

Definition move (x y : value) : M unit := set_current x y.

Definition cut (x y : value) : M unit := set_current x y.

Definition home : M unit := set_current (VInt 0) (VInt 0).

Definition set_position (x y : value) : M unit := set_current x y.

Definition signal_mode : M unit :=
  s <- gets state ;;
  publish (Signal (VStr "interpreter;mode") [VInt s]).

Definition ensure_rapid_mode : M unit :=
  s <- gets state ;;
  if s =? INTERPRETER_STATE_RAPID then ret tt
  else modify (with_state INTERPRETER_STATE_RAPID) ;; signal_mode.

Definition ensure_finished_mode : M unit :=
  s <- gets state ;;
  if s =? INTERPRETER_STATE_FINISH then ret tt
  else modify (with_state INTERPRETER_STATE_FINISH) ;; signal_mode.

Definition ensure_program_mode : M unit :=
  s <- gets state ;;
  if s =? INTERPRETER_STATE_PROGRAM then ret tt
  else modify (with_state INTERPRETER_STATE_PROGRAM) ;; signal_mode.

Definition set_speed (v : value) : M unit :=
  modify (fun st => with_settings (with_speed v (settings st)) st).

Definition store_power (v : value) : M unit :=
  modify (fun st => with_settings (with_power v (settings st)) st).

Definition set_power (p : value) : M unit :=
  store_power p ;;
  cur <- gets (fun st => power (settings st)) ;;
  high <- py_gt cur 1000 ;;
  (if high then store_power (VFloat 1000) else ret tt) ;;
  cur <- gets (fun st => power (settings st)) ;;
  low <- py_le cur 0 ;;
  (if low then store_power (VFloat 0) else ret tt).

Definition set_ppi (p : value) : M unit :=
  store_power p ;;
  cur <- gets (fun st => power (settings st)) ;;
  high <- py_gt cur 1000 ;;
  (if high then store_power (VFloat 1000) else ret tt) ;;
  cur <- gets (fun st => power (settings st)) ;;
  low <- py_le cur 0 ;;
  (if low then store_power (VFloat 0) else ret tt).

(** [set_pwm] tests [self.power], not [self.settings.power]: the interpreter
    has no attribute [power], so the test raises once the value is stored. *)
Definition set_pwm (p : value) : M unit :=
  store_power p ;;
  cur <- raise (A := value) AttributeError ;;
  high <- py_gt cur 1000 ;;
  (if high then store_power (VFloat 1000) else ret tt) ;;
  cur <- gets (fun st => power (settings st)) ;;
  low <- py_le cur 0 ;;
  (if low then store_power (VFloat 0) else ret tt).

Definition set_d_ratio (v : value) : M unit :=
  modify (fun st => with_settings (with_d_ratio v (settings st)) st).

Definition set_acceleration (v : value) : M unit :=
  modify (fun st => with_settings (with_acceleration v (settings st)) st).

Definition set_step (v : value) : M unit :=
  modify (fun st => with_settings (with_raster_step v (settings st)) st).

Definition set_overscan (v : value) : M unit :=
  modify (fun st => with_settings (with_overscan v (settings st)) st).

Definition set_incremental : M unit := modify (with_is_relative true).

Definition set_absolute : M unit := modify (with_is_relative false).

Definition wait (t : value) : M unit := modify (with_next_run t).

(** [lambda: len(self.pipe) != 0]: the interpreter has no attribute [pipe]. *)
Definition pipe_hold : Hold := mkHold (fun _ => Fails AttributeError) 0.

Definition wait_finish : M unit :=
  modify (fun st => with_temp_holds (temp_holds st ++ [Some pipe_hold]) st).

(** ** The spooler *)

Definition signal_queue (c : Context) : Context :=
  emit (Signal (VStr "spooler;queue") [VInt (Z.of_nat (List.length (queue c)))]) c.

(** [peek]: [None] on an empty queue, else the head. *)
Definition peek (c : Context) : value :=
  match queue c with
  | [] => VNone
  | head :: _ => head
  end.

Definition pop (c : Context) : value * Context :=
  match queue c with
  | [] => (VNone, c)
  | head :: rest => (head, signal_queue (with_queue rest c))
  end.

(** [job], called with its arguments as a tuple: one argument is appended
    as it is, several (or none) as one tuple. *)
Definition job (args : list value) (c : Context) : Context :=
  match args with
  | [element] => signal_queue (with_queue (queue c ++ [element]) c)
  | _ => signal_queue (with_queue (queue c ++ [VTuple args]) c)
  end.

Definition job_if_idle (element : value) (c : Context) : bool * Context :=
  if (List.length (queue c) =? 0)%nat then (true, job [element] c)
  else (false, c).

Definition clear_queue (c : Context) : Context :=
  signal_queue (with_queue [] c).

(** ** Holds, reset, status, the property register *)

(** The first loop of [hold]: asks every temporary hold in turn, writing
    [None] over one that answers false.  An entry left [None] by a pass
    that raised cannot be called. *)
Fixpoint temp_loop (ts : list (option Hold)) (temp_hold fail_hold : bool)
  : list (option Hold) * result (bool * bool) :=
  match ts with
  | [] => ([], Ok (temp_hold, fail_hold))
  | None :: _ => (ts, Raise TypeError)
  | Some h :: rest =>
      match ask h with
      | (Fails e, h') => (Some h' :: rest, Raise e)
      | (Says false, h') =>
          let (rest', r) := temp_loop rest temp_hold true in (None :: rest', r)
      | (Says true, h') =>
          let (rest', r) := temp_loop rest true fail_hold in (Some h' :: rest', r)
      end
  end.

(** The second loop of [hold]: stops at the first permanent hold that
    answers true. *)
Fixpoint perm_loop (hs : list Hold) : list Hold * result bool :=
  match hs with
  | [] => ([], Ok false)
  | h :: rest =>
      match ask h with
      | (Fails e, h') => (h' :: rest, Raise e)
      | (Says true, h') => (h' :: rest, Ok true)
      | (Says false, h') =>
          let (rest', r) := perm_loop rest in (h' :: rest', r)
      end
  end.

Definition is_some {A} (o : option A) : bool :=
  match o with Some _ => true | None => false end.

Definition hold : M bool :=
  fun st =>
    let (ts, r) := temp_loop (temp_holds st) false false in
    let st1 := with_temp_holds ts st in
    match r with
    | Raise e => (Raise e, st1)
    | Ok (temp_hold, fail_hold) =>
        let st2 := if fail_hold
                   then with_temp_holds (filter is_some (temp_holds st1)) st1
                   else st1 in
        if temp_hold then (Ok true, st2)
        else
          let (hs, r2) := perm_loop (holds st2) in
          (r2, with_holds hs st2)
    end.

Definition reset : M unit :=
  modify (with_spooled_item VNone) ;;
  modify (fun st => with_context (clear_queue (context st)) st) ;;
  modify (with_spooled_item VNone) ;;
  modify (with_temp_holds []).

(** The least magnitude of an int that does not convert to a float: the
    halfway point above the largest float rounds up and out of range. *)
Definition float_overflow : Z := 2 ^ 1024 - 2 ^ 970.

(** What goes wrong when one argument is formatted by [%f], which converts
    it to a float, and by [%d], which takes any number. *)
Definition f_arg_error (a : value) : option exn :=
  match a with
  | VInt z => if Z.abs z <? float_overflow then None else Some OverflowError
  | VBool _ | VFloat _ => None
  | _ => Some TypeError
  end.

Definition d_arg_error (a : value) : option exn :=
  match a with
  | VInt _ | VBool _ | VFloat _ => None
  | _ => Some TypeError
  end.

(** [fmt % v] for a format with one conversion: a tuple on the right is the
    list of arguments; the first is formatted, and then it is an error if
    there is none or if one is left over. *)
Definition format_error (arg_error : value -> option exn) (v : value) : option exn :=
  match v with
  | VTuple [] => Some TypeError
  | VTuple [a] => arg_error a
  | VTuple (a :: _) =>
      match arg_error a with
      | Some e => Some e
      | None => Some TypeError
      end
  | _ => arg_error v
  end.

Definition format_with (arg_error : value -> option exn) (v : value) : M unit :=
  match format_error arg_error v with
  | Some e => raise e
  | None => ret tt
  end.

(** ["...%f" % v] and ["...%d" % v] *)
Definition format_f : value -> M unit := format_with f_arg_error.
Definition format_d : value -> M unit := format_with d_arg_error.

Definition status : M unit :=
  x <- gets (fun st => current_x (context st)) ;;
  format_f x ;;
  y <- gets (fun st => current_y (context st)) ;;
  format_f y ;;
  s <- gets (fun st => speed (settings st)) ;;
  format_f s ;;
  p <- gets (fun st => power (settings st)) ;;
  format_d p ;;
  publish (Status x y s p).

Definition set_prop (mask : Z) : M unit :=
  modify (fun st => with_properties (Z.lor (properties st) mask) st).

Definition unset_prop (mask : Z) : M unit :=
  modify (fun st => with_properties (Z.land (properties st) (Z.lnot mask)) st).

Definition is_prop (mask : Z) : M bool :=
  gets (fun st => negb (Z.land (properties st) mask =? 0)).

Definition toggle_prop (mask : Z) : M unit :=
  b <- is_prop mask ;;
  if b then unset_prop mask else set_prop mask.

(** ** Queued command dispatch *)

(** The names that [command] compares against, in the order of its
    [if]/[elif] chain. *)
Inductive code : Type :=
| COMMAND_LASER_OFF | COMMAND_LASER_ON | COMMAND_LASER_DISABLE | COMMAND_LASER_ENABLE
| COMMAND_CUT | COMMAND_MOVE | COMMAND_JOG | COMMAND_JOG_SWITCH | COMMAND_JOG_FINISH
| COMMAND_HOME | COMMAND_LOCK | COMMAND_UNLOCK | COMMAND_PLOT | COMMAND_PLOT_START
| COMMAND_SET_SPEED | COMMAND_SET_POWER | COMMAND_SET_PPI | COMMAND_SET_PWM
| COMMAND_SET_STEP | COMMAND_SET_OVERSCAN | COMMAND_SET_ACCELERATION
| COMMAND_SET_D_RATIO | COMMAND_SET_DIRECTION | COMMAND_SET_INCREMENTAL
| COMMAND_SET_ABSOLUTE | COMMAND_SET_POSITION | COMMAND_MODE_RAPID
| COMMAND_MODE_PROGRAM | COMMAND_MODE_FINISHED | COMMAND_WAIT | COMMAND_WAIT_FINISH
| COMMAND_BEEP | COMMAND_FUNCTION | COMMAND_SIGNAL.

Definition chain : list code :=
  [ COMMAND_LASER_OFF; COMMAND_LASER_ON; COMMAND_LASER_DISABLE; COMMAND_LASER_ENABLE;
    COMMAND_CUT; COMMAND_MOVE; COMMAND_JOG; COMMAND_JOG_SWITCH; COMMAND_JOG_FINISH;
    COMMAND_HOME; COMMAND_LOCK; COMMAND_UNLOCK; COMMAND_PLOT; COMMAND_PLOT_START;
    COMMAND_SET_SPEED; COMMAND_SET_POWER; COMMAND_SET_PPI; COMMAND_SET_PWM;
    COMMAND_SET_STEP; COMMAND_SET_OVERSCAN; COMMAND_SET_ACCELERATION;
    COMMAND_SET_D_RATIO; COMMAND_SET_DIRECTION; COMMAND_SET_INCREMENTAL;
    COMMAND_SET_ABSOLUTE; COMMAND_SET_POSITION; COMMAND_MODE_RAPID;
    COMMAND_MODE_PROGRAM; COMMAND_MODE_FINISHED; COMMAND_WAIT; COMMAND_WAIT_FINISH;
    COMMAND_BEEP; COMMAND_FUNCTION; COMMAND_SIGNAL ].

(** The names that [realtime_command] compares against, in its order. *)
Inductive rt_code : Type :=
| REALTIME_PAUSE | REALTIME_RESUME | REALTIME_RESET | REALTIME_STATUS
| REALTIME_SAFETY_DOOR | REALTIME_JOG_CANCEL | REALTIME_SPEED_PERCENT
| REALTIME_SPEED | REALTIME_RAPID_PERCENT | REALTIME_RAPID | REALTIME_POWER_PERCENT
| REALTIME_POWER | REALTIME_OVERSCAN | REALTIME_LASER_DISABLE | REALTIME_LASER_ENABLE
| REALTIME_FLOOD_COOLANT | REALTIME_MIST_COOLANT.

Definition rt_chain : list rt_code :=
  [ REALTIME_PAUSE; REALTIME_RESUME; REALTIME_RESET; REALTIME_STATUS;
    REALTIME_SAFETY_DOOR; REALTIME_JOG_CANCEL; REALTIME_SPEED_PERCENT;
    REALTIME_SPEED; REALTIME_RAPID_PERCENT; REALTIME_RAPID; REALTIME_POWER_PERCENT;
    REALTIME_POWER; REALTIME_OVERSCAN; REALTIME_LASER_DISABLE; REALTIME_LASER_ENABLE;
    REALTIME_FLOOD_COOLANT; REALTIME_MIST_COOLANT ].

(** [LaserCommandConstants] gives each name its integer.  The module is not
    part of the sources at hand, so the numbering is a parameter of the
    dispatchers. *)
Definition Constants : Type := code -> Z.
Definition RealtimeConstants : Type := rt_code -> Z.

(** The first comparison of the chain that succeeds. *)
Definition decode (K : Constants) (c : Z) : option code :=
  find (fun n => c =? K n) chain.

Definition decode_rt (R : RealtimeConstants) (v : value) : option rt_code :=
  find (fun n => py_eq v (R n)) rt_chain.

(** ** Callables *)

Definition ensure (m : mode_call) : M unit :=
  match m with
  | ToRapid => ensure_rapid_mode
  | ToProgram => ensure_program_mode
  | ToFinished => ensure_finished_mode
  end.

Definition target (m : mode_call) : Z :=
  match m with
  | ToRapid => INTERPRETER_STATE_RAPID
  | ToProgram => INTERPRETER_STATE_PROGRAM
  | ToFinished => INTERPRETER_STATE_FINISH
  end.

(** One call back into the interpreter; none of these methods raises. *)
Definition run_deed (d : deed) (st : Interpreter) : Interpreter :=
  match d with
  | DoEnsure m => snd (ensure m st)
  | DoSetProp mask => snd (set_prop mask st)
  | DoUnsetProp mask => snd (unset_prop mask st)
  | DoToggleProp mask => snd (toggle_prop mask st)
  | DoJob args => with_context (job args (context st)) st
  | DoSetState z => with_state z st
  end.

Definition run_deeds (ds : list deed) (st : Interpreter) : Interpreter :=
  fold_left (fun s d => run_deed d s) ds st.

(** [callable(v)] *)
Definition callable (v : value) : bool :=
  match v with VFunc _ _ | VBound _ _ _ => true | _ => false end.

(** Calling a value: only a callable can be called. *)
Definition call (v : value) : M value :=
  match v with
  | VFunc name out =>
      publish (Called name) ;;
      match out with
      | Returns r => ret r
      | Throws e => raise e
      end
  | VBound name does out =>
      publish (Called name) ;;
      modify (run_deeds does) ;;
      match out with
      | Returns r => ret r
      | Throws e => raise e
      end
  | _ => raise TypeError
  end.

(** [self.jog(x, y, mode=..., min_jog=...)]: calls what [self.jog] is bound to. *)
Definition call_jog (x y : value) (mode : Z) : M unit :=
  j <- gets jog_attr ;;
  min_jog <- gets (fun st => opt_jog_minimum (context st)) ;;
  _ <- call j ;;
  ret tt.

(** One branch of the chain. *)
Definition dispatch (n : code) (values : list value) : M unit :=
  match n with
  | COMMAND_LASER_OFF => laser_off
  | COMMAND_LASER_ON => laser_on
  | COMMAND_LASER_DISABLE => laser_disable
  | COMMAND_LASER_ENABLE => laser_enable
  | COMMAND_CUT => xy <- unpack2 values ;; cut (fst xy) (snd xy)
  | COMMAND_MOVE => xy <- unpack2 values ;; move (fst xy) (snd xy)
  | COMMAND_JOG => xy <- unpack2 values ;; call_jog (fst xy) (snd xy) 0
  | COMMAND_JOG_SWITCH => xy <- unpack2 values ;; call_jog (fst xy) (snd xy) 1
  | COMMAND_JOG_FINISH => xy <- unpack2 values ;; call_jog (fst xy) (snd xy) 2
  | COMMAND_HOME => home
  | COMMAND_LOCK => no_such_method                        (* lock_rail *)
  | COMMAND_UNLOCK => no_such_method                      (* unlock_rail *)
  | COMMAND_PLOT => no_such_method                        (* plot_plot *)
  | COMMAND_PLOT_START => no_such_method                  (* plot_start *)
  | COMMAND_SET_SPEED => v <- item values 0 ;; set_speed v
  | COMMAND_SET_POWER => v <- item values 0 ;; set_power v
  | COMMAND_SET_PPI => v <- item values 0 ;; set_ppi v
  | COMMAND_SET_PWM => v <- item values 0 ;; set_pwm v
  | COMMAND_SET_STEP => v <- item values 0 ;; set_step v
  | COMMAND_SET_OVERSCAN => v <- item values 0 ;; set_overscan v
  | COMMAND_SET_ACCELERATION => v <- item values 0 ;; set_acceleration v
  | COMMAND_SET_D_RATIO => v <- item values 0 ;; set_d_ratio v
  | COMMAND_SET_DIRECTION => no_such_method               (* set_directions *)
  | COMMAND_SET_INCREMENTAL => set_incremental
  | COMMAND_SET_ABSOLUTE => set_absolute
  | COMMAND_SET_POSITION =>
      x <- item values 0 ;; y <- item values 1 ;; set_position x y
  | COMMAND_MODE_RAPID => ensure_rapid_mode
  | COMMAND_MODE_PROGRAM => ensure_program_mode
  | COMMAND_MODE_FINISHED => ensure_finished_mode
  | COMMAND_WAIT => t <- item values 0 ;; wait t
  | COMMAND_WAIT_FINISH => wait_finish
  | COMMAND_BEEP => publish Beep
  | COMMAND_FUNCTION =>
      match values with
      | t :: _ => if callable t then _ <- call t ;; ret tt else ret tt
      | [] => ret tt
      end
  | COMMAND_SIGNAL =>
      (* values is always a tuple here, never a str *)
      match values with
      | name :: (_ :: _) as args => publish (Signal name args)
      | _ => ret tt
      end
  end.

(** [command(self, command, *values)] *)
Definition command (K : Constants) (cmd : value) (values : list value) : M bool :=
  cv <- match cmd with
        | VTuple [] => raise IndexError                   (* command[0] *)
        | VTuple (c :: rest) => ret (c, rest)
        | _ => ret (cmd, values)
        end ;;
  match as_int (fst cv) with
  | None => ret false                                     (* Command type is not recognized. *)
  | Some c =>
      try_except
        (match decode K c with
         | Some n => dispatch n (snd cv)
         | None => ret tt
         end)
        is_AttributeError (ret tt) ;;
      ret true
  end.

(** ** Realtime commands *)

Definition dispatch_rt (n : rt_code) (values : list value) : M unit :=
  match n with
  | REALTIME_RESET => reset
  | REALTIME_STATUS => status
  | REALTIME_PAUSE | REALTIME_RESUME | REALTIME_SAFETY_DOOR | REALTIME_JOG_CANCEL
  | REALTIME_SPEED_PERCENT | REALTIME_SPEED | REALTIME_RAPID_PERCENT
  | REALTIME_RAPID | REALTIME_POWER_PERCENT | REALTIME_POWER | REALTIME_OVERSCAN
  | REALTIME_LASER_DISABLE | REALTIME_LASER_ENABLE | REALTIME_FLOOD_COOLANT
  | REALTIME_MIST_COOLANT => no_such_method
  end.

Definition realtime_command (R : RealtimeConstants) (cmd : value) (values : list value)
  : M unit :=
  try_except
    (match decode_rt R cmd with
     | Some n => dispatch_rt n values
     | None => ret tt
     end)
    is_AttributeError (ret tt).

(** ** The tick *)

Definition plotplanner_process : M bool := ret false.

(** [next(item)] on the in-flight item, which the iterator then has behind it. *)
Definition next_spooled : M value :=
  it <- gets spooled_item ;;
  match it with
  | VIter [] => raise StopIteration
  | VIter (e :: rest) => modify (with_spooled_item (VIter rest)) ;; ret e
  | _ => raise TypeError
  end.

Definition is_none (v : value) : bool :=
  match v with VNone => true | _ => false end.

Definition process_spooled_item (K : Constants) : M unit :=
  held <- hold ;;
  if held then ret tt else
  busy <- plotplanner_process ;;
  if busy then ret tt else
  it <- gets spooled_item ;;
  if is_none it then ret tt else
  done <- command K it [] ;;
  if done then modify (with_spooled_item VNone) else
  try_except
    (e <- next_spooled ;;
     ok <- command K e [] ;;
     if ok then ret tt else raise ValueError)
    is_StopIteration
    (modify (with_spooled_item VNone)).

(** [element.generate()] *)
Definition generate (element : value) : M value :=
  match element with
  | VJob yields => ret (VIter yields)
  | _ => raise AttributeError
  end.

Definition fetch_next_item_from_spooler : M unit :=
  element <- gets (fun st => peek (context st)) ;;
  if is_none element then ret tt else
  modify (fun st => with_context (snd (pop (context st))) st) ;;
  match element with
  | VInt _ | VBool _ => modify (with_spooled_item (VTuple [element]))
  | VTuple _ => modify (with_spooled_item element)
  | _ =>
      modify (fun st => with_rapid_jog (opt_rapid_between (context st))
                                       (opt_jog_mode (context st)) st) ;;
      try_except
        (it <- generate element ;; modify (with_spooled_item it))
        is_AttributeError
        (try_except
           (it <- call element ;; modify (with_spooled_item it))
           is_TypeError
           (ret tt))
  end.

Definition interpret (K : Constants) : M unit :=
  it <- gets spooled_item ;;
  (if is_none it then fetch_next_item_from_spooler else ret tt) ;;
  it <- gets spooled_item ;;
  if is_none it then
    q <- gets (fun st => quit (context st)) ;;
    if q then publish Stopped else ret tt
  else process_spooled_item K.

(** ** Construction and closed instances *)

(** [Interpreter.__init__]: [s] is what [LaserSettings()] builds, [c] the
    context with its registered settings. *)
Definition init (c : Context) (s : LaserSettings) : Interpreter :=
  let c := with_position (VInt 0) (VInt 0) c in
  mkInterpreter c s VNone [] [] INTERPRETER_STATE_RAPID 0 false false
                (opt_rapid_between c) (opt_jog_mode c) None.

(** A context with the defaults that [__init__] registers, an empty queue
    and nothing published. *)
Definition fresh_context : Context :=
  mkContext (VInt 0) (VInt 0) (VBool true) (VInt 0) (VInt 127) false [] [].

(** Modelled from the spec: [LaserSettings] lives in [CutCode], which is not
    among the sources; the spec, section 3, names its fields and gives
    [power] the range 0..1000.  The values below only serve closed examples. *)
Definition sample_settings : LaserSettings :=
  mkSettings (VFloat 20) (VFloat 1000) (VFloat 0.261) VNone (VInt 0) (VInt 20) true.

(** Modelled from the spec: [LaserCommandConstants] is not among the sources;
    the spec, section 6, lists the closed set of queued command codes
    without their numbers.  The table below numbers them as the project's
    module is known to, where SET_PPI and SET_PWM share 203.  It only
    serves closed examples: the theorems hold for every table, and say of
    a number what the chain of [command] does once it has taken a branch
    for it. *)
Definition sample_constants : Constants :=
  fun n =>
    match n with
    | COMMAND_LASER_OFF => 1 | COMMAND_LASER_ON => 2
    | COMMAND_LASER_DISABLE => 5 | COMMAND_LASER_ENABLE => 6
    | COMMAND_MOVE => 10 | COMMAND_CUT => 11
    | COMMAND_WAIT => 20 | COMMAND_WAIT_FINISH => 21
    | COMMAND_JOG => 30 | COMMAND_JOG_SWITCH => 31 | COMMAND_JOG_FINISH => 32
    | COMMAND_MODE_RAPID => 50 | COMMAND_MODE_FINISHED => 51
    | COMMAND_MODE_PROGRAM => 52
    | COMMAND_PLOT => 100 | COMMAND_PLOT_START => 101
    | COMMAND_SET_SPEED => 200 | COMMAND_SET_POWER => 201 | COMMAND_SET_PPI => 203
    | COMMAND_SET_PWM => 203 | COMMAND_SET_STEP => 205 | COMMAND_SET_DIRECTION => 209
    | COMMAND_SET_OVERSCAN => 206 | COMMAND_SET_D_RATIO => 207
    | COMMAND_SET_ACCELERATION => 208 | COMMAND_SET_INCREMENTAL => 210
    | COMMAND_SET_ABSOLUTE => 211 | COMMAND_SET_POSITION => 220
    | COMMAND_HOME => 300 | COMMAND_LOCK => 301 | COMMAND_UNLOCK => 302
    | COMMAND_BEEP => 320 | COMMAND_FUNCTION => 350 | COMMAND_SIGNAL => 360
    end.

(** Modelled from the spec: the realtime codes of section 6, numbered in the
    order the spec lists them, for closed examples only. *)
Definition sample_realtime : RealtimeConstants :=
  fun n =>
    match n with
    | REALTIME_PAUSE => 1001 | REALTIME_RESUME => 1002 | REALTIME_RESET => 1003
    | REALTIME_STATUS => 1004 | REALTIME_SAFETY_DOOR => 1005
    | REALTIME_JOG_CANCEL => 1006 | REALTIME_SPEED_PERCENT => 1007
    | REALTIME_SPEED => 1008 | REALTIME_RAPID_PERCENT => 1009
    | REALTIME_RAPID => 1010 | REALTIME_POWER_PERCENT => 1011
    | REALTIME_POWER => 1012 | REALTIME_OVERSCAN => 1013
    | REALTIME_LASER_DISABLE => 1014 | REALTIME_LASER_ENABLE => 1015
    | REALTIME_FLOOD_COOLANT => 1016 | REALTIME_MIST_COOLANT => 1017
    end.

Definition fresh_interpreter : Interpreter := init fresh_context sample_settings.

(** A hold that gives the same answer for ever. *)
Definition constant_hold (b : bool) : Hold := mkHold (fun _ => Says b) 0.

(** A hold that answers true on its first [n] evaluations and false after. *)
Definition countdown_hold (n : nat) : Hold := mkHold (fun k => Says (k <? n)%nat) 0.

(** What a run has published, among all that was published. *)
Definition is_mode_event (e : event) : bool :=
  match e with
  | Signal (VStr name) _ => String.eqb name "interpreter;mode"
  | _ => false
  end.

Definition mode_events (st : Interpreter) : nat :=
  List.length (filter is_mode_event (emitted (context st))).

(** Running a method for its final state, and one after another. *)
Definition exec {A} (m : M A) (st : Interpreter) : Interpreter := snd (m st).
Definition outcome_of {A} (m : M A) (st : Interpreter) : result A := fst (m st).

(** The code that [command] looks at: the head of a tuple, else the
    command itself. *)
Definition code_of (cmd : value) : result value :=
  match cmd with
  | VTuple [] => Raise IndexError
  | VTuple (c :: _) => Ok c
  | _ => Ok cmd
  end.

(** What clamping to 0..1000 stores for a number [q] carried by [v]. *)
Definition clamped (v : value) (q : Q) : value :=
  if Qgt_bool q 1000 then VFloat 1000
  else if Qle_bool q 0 then VFloat 0
  else v.

(** A method that leaves what [f] reads of the interpreter as it found it,
    however it ends. *)
Definition keeps {X A} (f : Interpreter -> X) (m : M A) : Prop :=
  forall st, f (snd (m st)) = f st.

(** The pending queue of the spooler, seen from the interpreter. *)
Definition pending (st : Interpreter) : list value := queue (context st).

(** How [_process_spooled_item] ends once it has pulled a command from the
    iterator and dispatched it. *)
Definition after_pull (r : result bool * Interpreter) : result unit * Interpreter :=
  match r with
  | (Ok true, s) => (Ok tt, s)
  | (Ok false, s) => (Raise ValueError, s)
  | (Raise e, s) =>
      if is_StopIteration e then (Ok tt, with_spooled_item VNone s) else (Raise e, s)
  end.

(** The three codes that reach [ensure_rapid_mode], [ensure_program_mode]
    and [ensure_finished_mode]. *)
Definition mode_code (K : Constants) (z : Z) : Prop :=
  z = K COMMAND_MODE_RAPID \/ z = K COMMAND_MODE_PROGRAM \/ z = K COMMAND_MODE_FINISHED.

(** ** Temporary holds that answer *)

(** A hold once it has been asked. *)
Definition asked (g : Hold) : Hold := mkHold (pred g) (S (calls g)).

(** Whether an entry of the temporary set answers true now. *)
Definition says_true (o : option Hold) : bool :=
  match o with
  | Some g => match pred g (calls g) with Says true => true | _ => false end
  | None => false
  end.

(** What the first loop of [hold] writes over temporary holds that all
    answer: a hold that answers true has been asked, one that answers false
    is overwritten. *)
Definition marked (ts : list (option Hold)) : list (option Hold) :=
  map (fun o => if says_true o then option_map asked o else None) ts.

(** What one evaluation of [hold] leaves of temporary holds that all
    answer: those that answer true, each asked once. *)
Definition pass (ts : list (option Hold)) : list (option Hold) :=
  map (option_map asked) (filter says_true ts).

Fixpoint pass_n (n : nat) (ts : list (option Hold)) : list (option Hold) :=
  match n with
  | O => ts
  | S k => pass (pass_n k ts)
  end.

(** An entry that is a hold and never raises from now on. *)
Definition steady (o : option Hold) : Prop :=
  exists g, o = Some g /\ forall k, exists b, pred g (calls g + k)%nat = Says b.

(** The interpreter after [n] evaluations of [hold], one per tick. *)
Fixpoint hold_n (n : nat) (st : Interpreter) : Interpreter :=
  match n with
  | O => st
  | S k => exec hold (hold_n k st)
  end.

(** ** The rest of the spooler *)

(** [jobs(jobs)]: a list or a tuple is spread over the queue, one job per
    element; anything else is appended as one job. *)
Definition jobs (js : value) (c : Context) : Context :=
  match js with
  | VList vs | VTuple vs => signal_queue (with_queue (queue c ++ vs) c)
  | _ => signal_queue (with_queue (queue c ++ [js]) c)
  end.

(** The elements of a list or a tuple. *)
Definition elements (v : value) : option (list value) :=
  match v with
  | VList vs | VTuple vs => Some vs
  | _ => None
  end.

(** [list.remove(x)]: drops the first item that is [x], none if there is
    none.  [same item x] stands for Python's test [item is x or item == x],
    which for objects is not a function of what the universe of values
    records of them. *)
Fixpoint list_remove (same : value -> value -> bool) (x : value) (l : list value)
  : option (list value) :=
  match l with
  | [] => None
  | item :: rest =>
      if same item x then Some rest
      else match list_remove same x rest with
           | Some rest' => Some (item :: rest')
           | None => None
           end
  end.

(** [remove(element)]: [list.remove] raises ValueError when nothing is
    removed, before the signal. *)
Definition remove (same : value -> value -> bool) (element : value) (c : Context)
  : result unit * Context :=
  match list_remove same element (queue c) with
  | Some q => (Ok tt, signal_queue (with_queue q c))
  | None => (Raise ValueError, c)
  end.

(** [n] calls of [pop], with what they returned, in order. *)
Fixpoint pop_n (n : nat) (c : Context) : list value * Context :=
  match n with
  | O => ([], c)
  | S k =>
      let (v, c1) := pop c in
      let (vs, c2) := pop_n k c1 in
      (v :: vs, c2)
  end.

(** The last thing published. *)
Definition last_event (c : Context) : option event :=
  last (map Some (emitted c)) None.

Definition queue_signal (n : nat) : event :=
  Signal (VStr "spooler;queue") [VInt (Z.of_nat n)].

(** ** Mode transitions, one after another *)

Fixpoint ensure_all (ms : list mode_call) (st : Interpreter) : Interpreter :=
  match ms with
  | [] => st
  | m :: rest => ensure_all rest (exec (ensure m) st)
  end.

(** How often the mode differs from the one before, along [ms] from [s]. *)
Fixpoint changes (s : Z) (ms : list mode_call) : nat :=
  match ms with
  | [] => O
  | m :: rest =>
      ((if (s =? target m)%Z then 0 else 1) + changes (target m) rest)%nat
  end.

(** The interpreter after [n] ticks. *)
Fixpoint interpret_n (K : Constants) (n : nat) (st : Interpreter) : Interpreter :=
  match n with
  | O => st
  | S k => exec (interpret K) (interpret_n K k st)
  end.

(** A job that the fetch can do nothing with: no int, no tuple, no
    [generate], and either not callable or a callable that raises TypeError. *)
Definition unusable (j : value) : bool :=
  match j with
  | VFloat _ | VStr _ | VIter _ | VObject _ => true
  | VFunc _ (Throws TypeError) => true
  | _ => false
  end.

(** ** Groups of codes *)

(** The codes whose handler this class does not define. *)
Definition unsupported (n : code) : bool :=
  match n with
  | COMMAND_LOCK | COMMAND_UNLOCK | COMMAND_PLOT | COMMAND_PLOT_START
  | COMMAND_SET_DIRECTION => true
  | _ => false
  end.

Definition is_jog (n : code) : bool :=
  match n with
  | COMMAND_JOG | COMMAND_JOG_SWITCH | COMMAND_JOG_FINISH => true
  | _ => false
  end.

(** The codes whose branch reads [values[0]] of a method that exists. *)
Definition reads_first_value (n : code) : bool :=
  match n with
  | COMMAND_SET_SPEED | COMMAND_SET_POWER | COMMAND_SET_PPI | COMMAND_SET_PWM
  | COMMAND_SET_STEP | COMMAND_SET_OVERSCAN | COMMAND_SET_ACCELERATION
  | COMMAND_SET_D_RATIO | COMMAND_SET_POSITION | COMMAND_WAIT => true
  | _ => false
  end.

(** The codes whose branch unpacks [x, y = values]. *)
Definition unpacks_pair (n : code) : bool :=
  match n with
  | COMMAND_CUT | COMMAND_MOVE | COMMAND_JOG | COMMAND_JOG_SWITCH
  | COMMAND_JOG_FINISH => true
  | _ => false
  end.

(** A callable that calls back into the interpreter. *)
Definition bound (v : value) : bool :=
  match v with VBound _ _ _ => true | _ => false end.

(** The values that [command] hands to the branch it takes. *)
Definition args_of (cmd : value) (values : list value) : list value :=
  match cmd with
  | VTuple [] => []
  | VTuple (_ :: rest) => rest
  | _ => values
  end.

Definition numeric (v : value) : bool := is_some (as_number v).


(** What [command] makes of how a callable ends. *)
Definition swallowed (out : outcome) : result bool :=
  match out with
  | Returns _ => Ok true
  | Throws e => if is_AttributeError e then Ok true else Raise e
  end.


Definition distinct_rt (R : RealtimeConstants) : Prop :=
  forall a b, R a = R b -> a = b.

(** * Properties *)

(** ** Decoding *)

Lemma chain_complete (n : code) : In n chain.
Proof. destruct n; simpl; tauto. Qed.

Lemma decode_sound (K : Constants) (c : Z) (n : code) :
  decode K c = Some n -> c = K n.
Proof.
  unfold decode. intros H. apply find_some in H. destruct H as [_ H].
  now apply Z.eqb_eq.
Qed.

Lemma decode_unknown (K : Constants) (c : Z) :
  (forall n, K n <> c) -> decode K c = None.
Proof.
  intros H. destruct (decode K c) as [m|] eqn:E; [|reflexivity].
  apply decode_sound in E. now elim (H m).
Qed.

Lemma sample_constants_range (n : code) : 1 <= sample_constants n <= 360.
Proof. destruct n; simpl; lia. Qed.

(** ** The property register *)

Lemma land_lor_same (p m : Z) : Z.land (Z.lor p m) m = m.
Proof.
  apply Z.bits_inj'. intros i _.
  rewrite Z.land_spec, Z.lor_spec.
  destruct (Z.testbit p i), (Z.testbit m i); reflexivity.
Qed.

Lemma land_lnot_same (p m : Z) : Z.land (Z.land p (Z.lnot m)) m = 0.
Proof.
  apply Z.bits_inj'. intros i Hi.
  rewrite !Z.land_spec, Z.lnot_spec, Z.bits_0 by assumption.
  destruct (Z.testbit p i), (Z.testbit m i); reflexivity.
Qed.

Lemma lor_outside (p m : Z) (i : Z) :
  Z.testbit m i = false -> Z.testbit (Z.lor p m) i = Z.testbit p i.
Proof. intros H. rewrite Z.lor_spec, H. apply orb_false_r. Qed.

Lemma land_lnot_outside (p m : Z) (i : Z) :
  Z.testbit m i = false -> Z.testbit (Z.land p (Z.lnot m)) i = Z.testbit p i.
Proof.
  intros H. destruct (Z.neg_nonneg_cases i) as [Hi|Hi].
  - now rewrite !Z.testbit_neg_r.
  - rewrite Z.land_spec, Z.lnot_spec, H by assumption. apply andb_true_r.
Qed.

(** C10: for a nonzero mask, [is_prop] is true right after [set_prop], false
    right after [unset_prop], and flipped by [toggle_prop]; none of the three
    changes a register bit that the mask does not have. *)
Theorem prop_register_mask (m : Z) (st : Interpreter) :
  m <> 0 ->
  outcome_of (is_prop m) (exec (set_prop m) st) = Ok true
  /\ outcome_of (is_prop m) (exec (unset_prop m) st) = Ok false
  /\ (forall b, outcome_of (is_prop m) st = Ok b ->
                outcome_of (is_prop m) (exec (toggle_prop m) st) = Ok (negb b))
  /\ (forall i, Z.testbit m i = false ->
        Z.testbit (properties (exec (set_prop m) st)) i = Z.testbit (properties st) i
        /\ Z.testbit (properties (exec (unset_prop m) st)) i = Z.testbit (properties st) i
        /\ Z.testbit (properties (exec (toggle_prop m) st)) i = Z.testbit (properties st) i).
Proof.
  intros Hm. unfold outcome_of, exec, is_prop, set_prop, unset_prop, gets, modify.
  simpl. repeat split.
  - rewrite land_lor_same. apply Z.eqb_neq in Hm. now rewrite Hm.
  - now rewrite land_lnot_same.
  - intros b Hb. injection Hb as Hb.
    unfold toggle_prop, bind, is_prop, gets, unset_prop, set_prop, modify. simpl.
    rewrite Hb. destruct b; simpl.
    + now rewrite land_lnot_same.
    + rewrite land_lor_same. apply Z.eqb_neq in Hm. now rewrite Hm.
  - now apply lor_outside.
  - now apply land_lnot_outside.
  - unfold toggle_prop, bind, is_prop, gets, unset_prop, set_prop, modify. simpl.
    destruct (negb (Z.land (properties st) m =? 0)); simpl.
    + now apply land_lnot_outside.
    + now apply lor_outside.
Qed.

Lemma prop_register_mask_witness :
  6 <> 0
  /\ outcome_of (is_prop 6) (exec (set_prop 6) (with_properties 9 fresh_interpreter)) = Ok true
  /\ outcome_of (is_prop 6) (exec (unset_prop 6) (with_properties 9 fresh_interpreter)) = Ok false
  /\ (forall b, outcome_of (is_prop 6) (with_properties 9 fresh_interpreter) = Ok b ->
        outcome_of (is_prop 6) (exec (toggle_prop 6) (with_properties 9 fresh_interpreter))
        = Ok (negb b)).
Proof.
  split; [discriminate|].
  destruct (prop_register_mask 6 (with_properties 9 fresh_interpreter)) as (H1 & H2 & H3 & _);
    [discriminate|].
  exact (conj H1 (conj H2 H3)).
Defined.

Lemma lor_below (n p m : Z) :
  0 <= n -> 0 <= p < 2 ^ n -> 0 <= m < 2 ^ n -> 0 <= Z.lor p m < 2 ^ n.
Proof.
  intros Hn Hp Hm.
  assert (H0 : 0 <= Z.lor p m) by (apply Z.lor_nonneg; lia).
  split; [assumption|].
  destruct (Z.eq_dec (Z.lor p m) 0) as [E|E].
  - rewrite E. apply Z.pow_pos_nonneg; lia.
  - apply Z.log2_lt_pow2; [lia|].
    rewrite Z.log2_lor by lia.
    apply Z.max_lub_lt.
    + destruct (Z.eq_dec p 0) as [E0|E0].
      * subst p. change (Z.log2 0) with 0.
        destruct (Z.eq_dec n 0) as [En|En]; [|lia].
        subst n. change (2 ^ 0) with 1 in Hm.
        assert (m = 0) by lia. subst m. now elim E.
      * apply Z.log2_lt_pow2; lia.
    + destruct (Z.eq_dec m 0) as [E0|E0].
      * subst m. change (Z.log2 0) with 0.
        destruct (Z.eq_dec n 0) as [En|En]; [|lia].
        subst n. change (2 ^ 0) with 1 in Hp.
        assert (p = 0) by lia. subst p. now elim E.
      * apply Z.log2_lt_pow2; lia.
Qed.

Lemma land_lnot_below (n p m : Z) :
  0 <= n -> 0 <= p < 2 ^ n -> 0 <= Z.land p (Z.lnot m) < 2 ^ n.
Proof.
  intros Hn Hp.
  assert (E : Z.land p (Z.lnot m) = Z.land p (Z.lnot m) mod 2 ^ n).
  { rewrite <- Z.land_ones by assumption.
    rewrite <- Z.land_assoc, (Z.land_comm (Z.lnot m)), Z.land_assoc.
    rewrite Z.land_ones by assumption.
    now rewrite Z.mod_small. }
  rewrite E. apply Z.mod_pos_bound. apply Z.pow_pos_nonneg; lia.
Qed.

(** A 32-bit register stays a 32-bit register under a 32-bit mask. *)
Lemma prop_register_32bit (m : Z) (st : Interpreter) :
  0 <= m < 2 ^ 32 -> 0 <= properties st < 2 ^ 32 ->
  0 <= properties (exec (set_prop m) st) < 2 ^ 32
  /\ 0 <= properties (exec (unset_prop m) st) < 2 ^ 32
  /\ 0 <= properties (exec (toggle_prop m) st) < 2 ^ 32.
Proof.
  intros Hm Hp.
  pose proof (lor_below 32 (properties st) m ltac:(lia) Hp Hm) as Hs.
  pose proof (land_lnot_below 32 (properties st) m ltac:(lia) Hp) as Hu'.
  unfold exec, toggle_prop, bind, is_prop, gets, set_prop, unset_prop, modify.
  cbn [snd fst properties with_properties].
  repeat split; try apply Hs; try apply Hu'.
  all: destruct (negb (Z.land (properties st) m =? 0));
    cbn [snd fst properties with_properties]; first [apply Hs | apply Hu'].
Qed.

(** ** Motion mode *)

Lemma mode_events_emit (e : event) (st : Interpreter) :
  mode_events (with_context (emit e (context st)) st)
  = (mode_events st + (if is_mode_event e then 1 else 0))%nat.
Proof.
  unfold mode_events. simpl. rewrite filter_app, length_app. simpl.
  now destruct (is_mode_event e).
Qed.

(** One call of [ensure_rapid_mode]: nothing at all in RAPID, else the mode
    is set and one event goes out. *)
Lemma ensure_rapid_mode_once (st : Interpreter) :
  (state st = INTERPRETER_STATE_RAPID -> ensure_rapid_mode st = (Ok tt, st))
  /\ (state st <> INTERPRETER_STATE_RAPID ->
      outcome_of ensure_rapid_mode st = Ok tt
      /\ state (exec ensure_rapid_mode st) = INTERPRETER_STATE_RAPID
      /\ emitted (context (exec ensure_rapid_mode st))
         = emitted (context st)
             ++ [Signal (VStr "interpreter;mode") [VInt INTERPRETER_STATE_RAPID]]).
Proof.
  unfold ensure_rapid_mode, outcome_of, exec, bind, gets. simpl. split; intros H.
  - rewrite H. reflexivity.
  - apply Z.eqb_neq in H. rewrite H. simpl. auto.
Qed.

(** C8, as the code has it: two calls of [ensure_rapid_mode] in a row leave
    the mode RAPID, the second call changes nothing, and together they
    publish one mode event when the starting mode is not RAPID and none
    when it is. *)
Theorem ensure_rapid_mode_twice (st : Interpreter) :
  let st1 := exec ensure_rapid_mode st in
  let st2 := exec ensure_rapid_mode st1 in
  state st2 = INTERPRETER_STATE_RAPID
  /\ st2 = st1
  /\ emitted (context st2)
     = emitted (context st)
         ++ (if state st =? INTERPRETER_STATE_RAPID then []
             else [Signal (VStr "interpreter;mode") [VInt INTERPRETER_STATE_RAPID]])
  /\ mode_events st2
     = (mode_events st + (if (state st =? INTERPRETER_STATE_RAPID)%Z then 0 else 1))%nat.
Proof.
  unfold ensure_rapid_mode, exec, bind, gets, mode_events. simpl.
  destruct (state st =? INTERPRETER_STATE_RAPID) eqn:E; simpl.
  - rewrite E. simpl. rewrite app_nil_r, Nat.add_0_r.
    apply Z.eqb_eq in E. auto.
  - rewrite filter_app, length_app. simpl. auto.
Qed.

(** C8, as the claim has it (one event whatever the starting mode), fails
    on an interpreter that starts in RAPID, as every new one does. *)
Lemma ensure_rapid_mode_twice_in_rapid :
  ~ (forall st : Interpreter,
        mode_events (exec ensure_rapid_mode (exec ensure_rapid_mode st))
        = (mode_events st + 1)%nat).
Proof.
  intros H. specialize (H fresh_interpreter). vm_compute in H. discriminate H.
Qed.

(** ** The spooler *)

(** C6: [job_if_idle] returns true exactly when the queue is empty, and then
    the queue holds the job; on a queue that is not empty it returns false
    and changes nothing. *)
Theorem job_if_idle_spec (element : value) (c : Context) :
  (fst (job_if_idle element c) = true <-> List.length (queue c) = 0%nat)
  /\ (List.length (queue c) = 0%nat ->
      queue (snd (job_if_idle element c)) = [element])
  /\ ((0 < List.length (queue c))%nat -> job_if_idle element c = (false, c)).
Proof.
  unfold job_if_idle. destruct (queue c) as [|j q] eqn:E; simpl.
  - rewrite E. simpl. repeat split; auto; intros H; inversion H.
  - repeat split; intros H; first [discriminate H | reflexivity].
Qed.

Lemma job_if_idle_signal (element : value) (c : Context) :
  queue c = [] ->
  emitted (snd (job_if_idle element c))
  = emitted c ++ [Signal (VStr "spooler;queue") [VInt 1]].
Proof. intros E. unfold job_if_idle. rewrite E. simpl. rewrite E. reflexivity. Qed.

(** [clear_queue] leaves nothing to peek at and publishes length 0. *)
Lemma clear_queue_spec (c : Context) :
  peek (clear_queue c) = VNone
  /\ emitted (clear_queue c) = emitted c ++ [Signal (VStr "spooler;queue") [VInt 0]].
Proof. split; reflexivity. Qed.

(** ** Reset *)

(** C4, as the code has it: [reset], in any state, empties the in-flight
    slot, the queue (so that [peek] gives nothing) and the temporary holds;
    the permanent holds stay as they were. *)
Theorem reset_spec (st : Interpreter) :
  outcome_of reset st = Ok tt
  /\ spooled_item (exec reset st) = VNone
  /\ queue (context (exec reset st)) = []
  /\ peek (context (exec reset st)) = VNone
  /\ temp_holds (exec reset st) = []
  /\ holds (exec reset st) = holds st.
Proof. repeat split. Qed.

(** C4, as the claim has it (no hold is left after [reset]), fails when a
    permanent hold is installed. *)
Lemma reset_keeps_permanent_holds :
  ~ (forall st : Interpreter,
        spooled_item (exec reset st) = VNone
        /\ peek (context (exec reset st)) = VNone
        /\ temp_holds (exec reset st) = []
        /\ holds (exec reset st) = []).
Proof.
  intros H.
  destruct (H (with_holds [constant_hold true] fresh_interpreter)) as (_ & _ & _ & H4).
  discriminate H4.
Qed.

(** ** What [command] returns *)

Lemma command_not_int (K : Constants) (cmd : value) (values : list value)
      (st : Interpreter) (c : value) :
  code_of cmd = Ok c -> as_int c = None ->
  command K cmd values st = (Ok false, st).
Proof.
  intros Hc Hi. unfold command, bind.
  destruct cmd as [| | | | |[|h t]| | | | | |]; simpl in *;
    try discriminate Hc; injection Hc as <-; simpl in *;
    try discriminate Hi; try rewrite Hi; reflexivity.
Qed.

Lemma command_int (K : Constants) (cmd : value) (values : list value)
      (st : Interpreter) (c : value) (z : Z) :
  code_of cmd = Ok c -> as_int c = Some z ->
  outcome_of (command K cmd values) st = Ok true
  \/ exists e, outcome_of (command K cmd values) st = Raise e.
Proof.
  intros Hc Hi. unfold outcome_of, command, bind.
  destruct cmd as [| | | | |[|h t]| | | | | |]; simpl in *;
    try discriminate Hc; injection Hc as <-; simpl in *;
    try discriminate Hi; try rewrite Hi;
    match goal with
    | |- context [try_except ?m ?c ?h ?s] =>
        destruct (try_except m c h s) as [[[]|e] st']; simpl; eauto
    end.
Qed.

(** C5, as the code has it: [command] answers false exactly when the code
    is not an integer; on an integer code that no name of the enumeration
    carries it answers true and changes nothing. *)
Theorem command_recognizes_every_int (K : Constants) (cmd : value)
        (values : list value) (st : Interpreter) :
  (outcome_of (command K cmd values) st = Ok false
   <-> exists c, code_of cmd = Ok c /\ as_int c = None)
  /\ (forall c z, code_of cmd = Ok c -> as_int c = Some z ->
        (forall n, K n <> z) ->
        command K cmd values st = (Ok true, st)).
Proof.
  split; [split|].
  - intros H. destruct (code_of cmd) as [c|e] eqn:Hc.
    + destruct (as_int c) as [z|] eqn:Hi; [|eauto].
      destruct (command_int K cmd values st c z Hc Hi) as [T|[e T]];
        rewrite T in H; discriminate H.
    + destruct cmd as [| | | | |[|h t]| | | | | |]; simpl in Hc; try discriminate Hc.
      discriminate H.
  - intros (c & Hc & Hi). unfold outcome_of.
    now rewrite (command_not_int K cmd values st c Hc Hi).
  - intros c z Hc Hi Hn. unfold command, bind.
    destruct cmd as [| | | | |[|h t]| | | | | |]; simpl in *;
      try discriminate Hc; injection Hc as <-; simpl in *;
      try discriminate Hi; try rewrite Hi; try (injection Hi as <-);
      unfold try_except; rewrite (decode_unknown K _ Hn); reflexivity.
Qed.

(** C5, as the claim has it (a code outside the enumeration is answered
    "not recognized"), fails on any integer that no name carries. *)
Lemma command_unknown_int_recognized :
  ~ (forall (K : Constants) (c : Z) (values : list value) (st : Interpreter),
        (forall n, K n <> c) ->
        outcome_of (command K (VInt c) values) st = Ok false).
Proof.
  intros H.
  specialize (H sample_constants 9999 [] fresh_interpreter).
  assert (Hn : forall n, sample_constants n <> 9999)
    by (intros n; pose proof (sample_constants_range n); lia).
  specialize (H Hn). vm_compute in H. discriminate H.
Qed.

(** ** Power *)

Lemma set_power_clamps (v : value) (q : Q) (st : Interpreter) :
  as_number v = Some q ->
  set_power v st
  = (Ok tt, with_settings (with_power (clamped v q) (settings st)) st).
Proof.
  intros Hv. unfold set_power, clamped, bind, store_power, gets, py_gt, py_le, modify.
  cbn [settings with_settings power with_power fst snd]. rewrite Hv.
  unfold ret. destruct (Qgt_bool q 1000) eqn:Hhigh.
  - reflexivity.
  - cbn [settings with_settings power with_power]. rewrite Hv.
    destruct (Qle_bool q 0); destruct st; reflexivity.
Qed.

Lemma set_ppi_clamps (v : value) (q : Q) (st : Interpreter) :
  as_number v = Some q ->
  set_ppi v st
  = (Ok tt, with_settings (with_power (clamped v q) (settings st)) st).
Proof. exact (set_power_clamps v q st). Qed.

Lemma clamped_range (v : value) (q : Q) :
  as_number v = Some q ->
  exists q', as_number (clamped v q) = Some q' /\ (0 <= q' <= 1000)%Q.
Proof.
  intros Hv. unfold clamped, Qgt_bool.
  destruct (Qle_bool q 1000) eqn:Hhi; simpl.
  - destruct (Qle_bool q 0) eqn:Hlo.
    + exists 0%Q. split; [reflexivity|]. split; discriminate.
    + exists q. split; [assumption|]. split.
      * apply Qlt_le_weak, Qnot_le_lt. intros C.
        apply Qle_bool_iff in C. congruence.
      * now apply Qle_bool_iff.
  - exists 1000%Q. split; [reflexivity|]. split; discriminate.
Qed.

(** The three examples of the spec, on [set_power]. *)
Example set_power_1500 :
  power (settings (exec (set_power (VInt 1500)) fresh_interpreter)) = VFloat 1000.
Proof. reflexivity. Qed.

Example set_power_minus_5 :
  power (settings (exec (set_power (VInt (-5))) fresh_interpreter)) = VFloat 0.
Proof. reflexivity. Qed.

Example set_power_500 :
  power (settings (exec (set_power (VInt 500)) fresh_interpreter)) = VInt 500.
Proof. reflexivity. Qed.

Lemma set_pwm_raises (v : value) (st : Interpreter) :
  set_pwm v st = (Raise AttributeError, with_settings (with_power v (settings st)) st).
Proof. reflexivity. Qed.

(** Once the chain has taken the branch of [n] for the code of a command,
    [command] is that branch, with AttributeError swallowed. *)
Lemma command_decoded (K : Constants) (cmd c : value) (values : list value)
      (st : Interpreter) (z : Z) (n : code) :
  code_of cmd = Ok c -> as_int c = Some z -> decode K z = Some n ->
  command K cmd values st
  = (try_except (dispatch n (args_of cmd values)) is_AttributeError (ret tt) ;;
     ret true) st.
Proof.
  intros Hc Hi Hd. unfold command. unfold bind at 1.
  destruct cmd as [| | | | |[|h t]| | | | | |]; simpl in Hc; try discriminate Hc;
    injection Hc as <-; cbn [ret fst snd args_of]; rewrite Hi, Hd; reflexivity.
Qed.

Lemma command_tuple_decoded (K : Constants) (z : Z) (n : code)
      (args values : list value) (st : Interpreter) :
  decode K z = Some n ->
  command K (VTuple (VInt z :: args)) values st
  = (try_except (dispatch n args) is_AttributeError (ret tt) ;; ret true) st.
Proof.
  intros Hd.
  exact (command_decoded K (VTuple (VInt z :: args)) (VInt z) values st z n
           eq_refl eq_refl Hd).
Qed.

(** The branch of SET_PWM itself stores the value as given: the
    AttributeError of [set_pwm] is swallowed by [command].  The branch is
    only reached in a table where no earlier name has SET_PWM's number. *)
Lemma set_pwm_branch_stores_as_given (K : Constants) (z : Z) (v : value)
      (values : list value) (st : Interpreter) :
  decode K z = Some COMMAND_SET_PWM ->
  command K (VTuple [VInt z; v]) values st
  = (Ok true, with_settings (with_power v (settings st)) st).
Proof.
  intros Hd. now rewrite (command_tuple_decoded K z _ [v] values st Hd).
Qed.

Lemma clamped_cases (v : value) (q : Q) :
  ((1000 < q)%Q -> clamped v q = VFloat 1000)
  /\ ((q <= 0)%Q -> clamped v q = VFloat 0)
  /\ ((0 < q)%Q -> (q <= 1000)%Q -> clamped v q = v).
Proof.
  unfold clamped, Qgt_bool. repeat split.
  - intros H. destruct (Qle_bool q 1000) eqn:C; [|reflexivity].
    apply Qle_bool_iff in C. exfalso. apply (Qlt_not_le _ _ H C).
  - intros H. assert (C : Qle_bool q 1000 = true).
    { apply Qle_bool_iff. apply (Qle_trans _ 0); [assumption | discriminate]. }
    rewrite C. cbn [negb]. apply Qle_bool_iff in H. now rewrite H.
  - intros Hpos Hle. apply Qle_bool_iff in Hle. rewrite Hle. cbn [negb].
    destruct (Qle_bool q 0) eqn:C; [|reflexivity].
    apply Qle_bool_iff in C. exfalso. apply (Qlt_not_le _ _ Hpos C).
Qed.

(** C2: dispatching SET_POWER, SET_PPI or SET_PWM with a number leaves in
    [settings.power] that number clamped to 0..1000 (1000 above 1000, 0 at
    0 or below, the number itself in between), whenever the chain of
    [command] takes the branch of SET_POWER or of SET_PPI for the code.
    It does so for SET_POWER and SET_PPI, and for SET_PWM too in a table
    where SET_PWM has the number of SET_PPI, whose branch comes first. *)
Theorem power_codes_clamp (K : Constants) (n m : code) (v : value) (q : Q)
        (values : list value) (st : Interpreter) :
  n = COMMAND_SET_POWER \/ n = COMMAND_SET_PPI \/ n = COMMAND_SET_PWM ->
  decode K (K n) = Some m ->
  m = COMMAND_SET_POWER \/ m = COMMAND_SET_PPI ->
  as_number v = Some q ->
  let r := command K (VTuple [VInt (K n); v]) values st in
  r = (Ok true, with_settings (with_power (clamped v q) (settings st)) st)
  /\ ((1000 < q)%Q -> power (settings (snd r)) = VFloat 1000)
  /\ ((q <= 0)%Q -> power (settings (snd r)) = VFloat 0)
  /\ ((0 < q)%Q -> (q <= 1000)%Q -> power (settings (snd r)) = v)
  /\ (exists q', as_number (power (settings (snd r))) = Some q'
                 /\ (0 <= q' <= 1000)%Q).
Proof.
  intros _ Hd Hm Hv r.
  assert (E : r = (Ok true, with_settings (with_power (clamped v q) (settings st)) st)).
  { unfold r. rewrite (command_tuple_decoded K _ m [v] values st Hd).
    destruct Hm as [-> | ->]; cbn [dispatch]; unfold bind, try_except, item;
      cbn [nth_error]; unfold ret;
      [rewrite (set_power_clamps v q st Hv) | rewrite (set_ppi_clamps v q st Hv)];
      reflexivity. }
  rewrite E. cbn [fst snd settings with_settings power with_power].
  destruct (clamped_cases v q) as (C1 & C2 & C3).
  repeat split; auto. now apply clamped_range.
Qed.

Lemma power_codes_clamp_witness :
  let r := command sample_constants
             (VTuple [VInt (sample_constants COMMAND_SET_PWM); VInt 1500]) []
             fresh_interpreter in
  r = (Ok true,
       with_settings
         (with_power (clamped (VInt 1500) (inject_Z 1500)) (settings fresh_interpreter))
         fresh_interpreter)
  /\ ((1000 < inject_Z 1500)%Q -> power (settings (snd r)) = VFloat 1000)
  /\ ((inject_Z 1500 <= 0)%Q -> power (settings (snd r)) = VFloat 0)
  /\ ((0 < inject_Z 1500)%Q -> (inject_Z 1500 <= 1000)%Q ->
      power (settings (snd r)) = VInt 1500)
  /\ (exists q', as_number (power (settings (snd r))) = Some q'
                 /\ (0 <= q' <= 1000)%Q).
Proof.
  exact (power_codes_clamp sample_constants COMMAND_SET_PWM COMMAND_SET_PPI
           (VInt 1500) (inject_Z 1500) [] fresh_interpreter
           (or_intror (or_intror eq_refl)) eq_refl (or_intror eq_refl) eq_refl).
Defined.

(** The three codes in the sample table, on the three values of the spec. *)
Example power_codes_on_sample_table :
  let run n v :=
    power (settings (exec (command sample_constants
                                   (VTuple [VInt (sample_constants n); VInt v]) [])
                          fresh_interpreter)) in
  (run COMMAND_SET_POWER 1500 = VFloat 1000
   /\ run COMMAND_SET_POWER (-5) = VFloat 0
   /\ run COMMAND_SET_POWER 500 = VInt 500)
  /\ (run COMMAND_SET_PPI 1500 = VFloat 1000
      /\ run COMMAND_SET_PPI (-5) = VFloat 0
      /\ run COMMAND_SET_PPI 500 = VInt 500)
  /\ (run COMMAND_SET_PWM 1500 = VFloat 1000
      /\ run COMMAND_SET_PWM (-5) = VFloat 0
      /\ run COMMAND_SET_PWM 500 = VInt 500).
Proof. vm_compute. repeat split. Qed.

(** ** What a method leaves alone *)

Section Keeps.

Context {X : Type} (f : Interpreter -> X).

Lemma keeps_ret {A} (a : A) : keeps f (ret a).
Proof. intros st. reflexivity. Qed.

Lemma keeps_raise {A} (e : exn) : keeps f (raise (A := A) e).
Proof. intros st. reflexivity. Qed.

Lemma keeps_gets {A} (g : Interpreter -> A) : keeps f (gets g).
Proof. intros st. reflexivity. Qed.

Lemma keeps_modify (g : Interpreter -> Interpreter) :
  (forall st, f (g st) = f st) -> keeps f (modify g).
Proof. intros H st. apply H. Qed.

Lemma keeps_bind {A B} (m : M A) (k : A -> M B) :
  keeps f m -> (forall a, keeps f (k a)) -> keeps f (bind m k).
Proof.
  intros Hm Hk st. unfold bind.
  specialize (Hm st). destruct (m st) as [[a|e] st']; simpl in *.
  - now rewrite Hk.
  - assumption.
Qed.

Lemma keeps_try_except {A} (m : M A) (catch : exn -> bool) (h : M A) :
  keeps f m -> keeps f h -> keeps f (try_except m catch h).
Proof.
  intros Hm Hh st. unfold try_except.
  specialize (Hm st). destruct (m st) as [[a|e] st']; simpl in *.
  - assumption.
  - destruct (catch e); simpl; [now rewrite Hh | assumption].
Qed.

Lemma keeps_if {A} (b : bool) (x y : M A) :
  keeps f x -> keeps f y -> keeps f (if b then x else y).
Proof. now destruct b. Qed.

Lemma keeps_unpack2 (values : list value) : keeps f (unpack2 values).
Proof. intros st. destruct values as [|x [|y [|z t]]]; reflexivity. Qed.

Lemma keeps_item (values : list value) (n : nat) : keeps f (item values n).
Proof. intros st. unfold item. now destruct (nth_error values n). Qed.

Lemma keeps_py_gt (v : value) (q : Q) : keeps f (py_gt v q).
Proof. intros st. unfold py_gt. now destruct (as_number v). Qed.

Lemma keeps_py_le (v : value) (q : Q) : keeps f (py_le v q).
Proof. intros st. unfold py_le. now destruct (as_number v). Qed.

Lemma keeps_format_with (arg_error : value -> option exn) (v : value) :
  keeps f (format_with arg_error v).
Proof. intros st. unfold format_with. now destruct (format_error arg_error v). Qed.

(** What the dispatchers add around a branch changes nothing by itself. *)
Lemma swallowing_frame (m : M unit) (st : Interpreter) :
  f (snd ((try_except m is_AttributeError (ret tt) ;; ret true) st)) = f (snd (m st)).
Proof.
  unfold bind, try_except, ret. destruct (m st) as [[[]|e] s]; [reflexivity|].
  now destruct e.
Qed.

(** What follows needs [f] not to read what was published. *)
Hypothesis f_publish : forall e st, f (with_context (emit e (context st)) st) = f st.

Lemma keeps_publish (e : event) : keeps f (publish e).
Proof. intros st. apply f_publish. Qed.

(** A callable that does not call back into the interpreter. *)
Lemma keeps_call (v : value) : bound v = false -> keeps f (call v).
Proof.
  intros Hb. destruct v; try apply keeps_raise; [|discriminate Hb].
  unfold call. apply keeps_bind; [apply keeps_publish|].
  intros _. destruct out; [apply keeps_ret | apply keeps_raise].
Qed.

Lemma call_jog_frame (x y : value) (mode : Z) (st : Interpreter) :
  bound (jog_attr st) = false -> f (snd (call_jog x y mode st)) = f st.
Proof.
  intros Hb. unfold call_jog. unfold bind at 1, gets at 1. unfold bind at 1, gets at 1.
  unfold bind at 1.
  pose proof (keeps_call (jog_attr st) Hb st) as C.
  destruct (call (jog_attr st) st) as [[r|e] s]; exact C.
Qed.

Lemma jog_branch_frame (n : code) (args : list value) (st : Interpreter) :
  is_jog n = true -> bound (jog_attr st) = false ->
  f (snd (dispatch n args st)) = f st.
Proof.
  intros Hn Hb.
  destruct n; try discriminate Hn; cbn [dispatch];
    (destruct args as [|x [|y [|z t]]]; try reflexivity;
     unfold bind at 1; cbn [unpack2 ret fst snd]; now apply call_jog_frame).
Qed.

Lemma function_branch_frame (args : list value) (st : Interpreter) :
  bound (hd VNone args) = false ->
  f (snd (dispatch COMMAND_FUNCTION args st)) = f st.
Proof.
  intros Hb. cbn [dispatch]. destruct args as [|t r]; [reflexivity|].
  cbn [hd] in Hb. destruct (callable t); [|reflexivity].
  assert (G : keeps f (_ <- call t ;; ret tt)); [|apply G].
  apply keeps_bind; [now apply keeps_call | intros; apply keeps_ret].
Qed.

End Keeps.

Ltac keeps := repeat (intros; first
  [ apply keeps_ret | apply keeps_raise | apply keeps_gets
  | apply keeps_unpack2 | apply keeps_item | apply keeps_py_gt
  | apply keeps_py_le | apply keeps_format_with
  | apply keeps_modify; reflexivity | apply keeps_if | apply keeps_bind ]).

Ltac unfold_handlers :=
  unfold dispatch, laser_off, laser_on, laser_disable, laser_enable, cut, move,
    home, set_current, no_such_method, set_speed, set_step, set_overscan,
    set_acceleration, set_d_ratio, set_incremental, set_absolute, set_position,
    set_current, wait, wait_finish, set_power, set_ppi, set_pwm, store_power,
    ensure_rapid_mode, ensure_program_mode, ensure_finished_mode, signal_mode.

(** The shape shared by what [command] leaves alone: a fact of every
    branch that [allowed] lets through carries over to [command]. *)
Lemma command_frame {X : Type} (f : Interpreter -> X) (allowed : code -> Prop)
      (K : Constants) (cmd : value) (values : list value) (st : Interpreter) :
  (forall n args, allowed n -> bound (hd VNone args) = false ->
                  f (snd (dispatch n args st)) = f st) ->
  (forall c z n, code_of cmd = Ok c -> as_int c = Some z -> decode K z = Some n ->
                 allowed n) ->
  bound (hd VNone (args_of cmd values)) = false ->
  f (snd (command K cmd values st)) = f st.
Proof.
  intros Hd Ha Hb.
  destruct (code_of cmd) as [c|e] eqn:Hc.
  - destruct (as_int c) as [z|] eqn:Hi.
    + destruct (decode K z) as [n|] eqn:Hn.
      * rewrite (command_decoded K cmd c values st z n Hc Hi Hn).
        rewrite swallowing_frame. apply Hd; [|assumption].
        exact (Ha c z n eq_refl Hi Hn).
      * unfold command. unfold bind at 1.
        destruct cmd as [| | | | |[|h t]| | | | | |]; simpl in Hc;
          try discriminate Hc; injection Hc as <-; cbn [ret fst snd];
          rewrite Hi; unfold bind, try_except; rewrite Hn; reflexivity.
    + now rewrite (command_not_int K cmd values st c Hc Hi).
  - destruct cmd as [| | | | |[|h t]| | | | | |]; simpl in Hc; try discriminate Hc.
    reflexivity.
Qed.

Lemma keeps_mode_reset : keeps state reset.
Proof. unfold reset. keeps. Qed.

Lemma keeps_mode_status : keeps state status.
Proof. unfold status. keeps. Qed.

Lemma dispatch_mode_frame (n : code) (args : list value) (st : Interpreter) :
  n <> COMMAND_MODE_RAPID -> n <> COMMAND_MODE_PROGRAM -> n <> COMMAND_MODE_FINISHED ->
  bound (jog_attr st) = false -> bound (hd VNone args) = false ->
  state (snd (dispatch n args st)) = state st.
Proof.
  intros H1 H2 H3 Hj Ha.
  destruct (is_jog n) eqn:J.
  - apply jog_branch_frame; auto.
  - assert (G : n <> COMMAND_FUNCTION -> keeps state (dispatch n args)).
    { intros H4. destruct n; try congruence; try discriminate J; unfold_handlers;
        try solve [keeps].
      destruct args as [|name [|a t]]; keeps. }
    destruct n; try (apply G; discriminate).
    apply function_branch_frame; auto.
Qed.

Lemma keeps_mode_dispatch_rt (n : rt_code) (values : list value) :
  keeps state (dispatch_rt n values).
Proof.
  destruct n; unfold dispatch_rt, no_such_method;
    first [apply keeps_mode_reset | apply keeps_mode_status | apply keeps_raise].
Qed.

Lemma keeps_mode_realtime_command (R : RealtimeConstants) (cmd : value)
      (values : list value) :
  keeps state (realtime_command R cmd values).
Proof.
  unfold realtime_command. apply keeps_try_except; [|apply keeps_ret].
  destruct (decode_rt R cmd); [apply keeps_mode_dispatch_rt | apply keeps_ret].
Qed.

Lemma decode_not_mode (K : Constants) (z : Z) (n : code) :
  ~ mode_code K z -> decode K z = Some n ->
  n <> COMMAND_MODE_RAPID /\ n <> COMMAND_MODE_PROGRAM /\ n <> COMMAND_MODE_FINISHED.
Proof.
  intros Hz Hn. apply decode_sound in Hn. unfold mode_code in Hz.
  repeat split; intros ->; tauto.
Qed.

(** C9, as the code has it: [command] on a code that is none of MODE_RAPID,
    MODE_PROGRAM and MODE_FINISHED leaves the motion mode as it was, and so
    does every [realtime_command], whether they return or raise, as long
    as the command calls no callable that calls back into the interpreter
    (the first value of FUNCTION, and [self.jog] for the jog codes). *)
Theorem mode_only_by_mode_codes (K : Constants) (R : RealtimeConstants)
        (cmd : value) (values : list value) (st : Interpreter) :
  (forall c z, code_of cmd = Ok c -> as_int c = Some z -> ~ mode_code K z) ->
  bound (hd VNone (args_of cmd values)) = false ->
  bound (jog_attr st) = false ->
  state (exec (command K cmd values) st) = state st
  /\ (forall rcmd rvalues,
        state (exec (realtime_command R rcmd rvalues) st) = state st).
Proof.
  intros H Ha Hj. split; [|intros rcmd rvalues; apply keeps_mode_realtime_command].
  unfold exec.
  apply (command_frame state
           (fun n => n <> COMMAND_MODE_RAPID /\ n <> COMMAND_MODE_PROGRAM
                     /\ n <> COMMAND_MODE_FINISHED)); [| |assumption].
  - intros n args (N1 & N2 & N3) Hb. now apply dispatch_mode_frame.
  - intros c z n Hc Hi Hn. exact (decode_not_mode K z n (H c z Hc Hi) Hn).
Qed.

Lemma mode_only_by_mode_codes_witness :
  state (exec (command sample_constants (VTuple [VInt 10; VInt 5; VInt 5]) [])
              (with_state INTERPRETER_STATE_PROGRAM fresh_interpreter))
  = state (with_state INTERPRETER_STATE_PROGRAM fresh_interpreter)
  /\ (forall rcmd rvalues,
        state (exec (realtime_command sample_realtime rcmd rvalues)
                    (with_state INTERPRETER_STATE_PROGRAM fresh_interpreter))
        = state (with_state INTERPRETER_STATE_PROGRAM fresh_interpreter)).
Proof.
  apply (mode_only_by_mode_codes sample_constants sample_realtime
           (VTuple [VInt 10; VInt 5; VInt 5]) []
           (with_state INTERPRETER_STATE_PROGRAM fresh_interpreter)).
  - intros c z Hc Hi. injection Hc as <-. injection Hi as <-.
    unfold mode_code. simpl. lia.
  - reflexivity.
  - reflexivity.
Defined.

(** C9, as the claim has it (no code but the MODE ones changes the mode),
    fails on FUNCTION given the interpreter's own [ensure_program_mode]:
    the code is no MODE code and the mode goes from RAPID to PROGRAM. *)
Lemma mode_changed_by_function_callable :
  ~ (forall (K : Constants) (cmd : value) (values : list value) (st : Interpreter),
        (forall c z, code_of cmd = Ok c -> as_int c = Some z -> ~ mode_code K z) ->
        state (exec (command K cmd values) st) = state st).
Proof.
  intros H.
  specialize (H sample_constants
                (VTuple [VInt 350;
                         VBound "ensure_program_mode" [DoEnsure ToProgram]
                                (Returns VNone)])
                [] fresh_interpreter).
  assert (N : forall c z,
             code_of (VTuple [VInt 350;
                              VBound "ensure_program_mode" [DoEnsure ToProgram]
                                     (Returns VNone)]) = Ok c ->
             as_int c = Some z -> ~ mode_code sample_constants z).
  { intros c z Hc Hi. injection Hc as <-. injection Hi as <-.
    unfold mode_code. simpl. lia. }
  specialize (H N). vm_compute in H. discriminate H.
Qed.

(** The mode codes do reach the three transitions. *)
Lemma command_mode_codes (K : Constants) (z : Z) (values : list value)
      (st : Interpreter) :
  (decode K z = Some COMMAND_MODE_RAPID ->
     command K (VInt z) values st = (Ok true, exec ensure_rapid_mode st))
  /\ (decode K z = Some COMMAND_MODE_PROGRAM ->
      command K (VInt z) values st = (Ok true, exec ensure_program_mode st))
  /\ (decode K z = Some COMMAND_MODE_FINISHED ->
      command K (VInt z) values st = (Ok true, exec ensure_finished_mode st)).
Proof.
  repeat split; intros Hd;
    rewrite (command_decoded K (VInt z) (VInt z) values st z _ eq_refl eq_refl Hd);
    unfold bind, try_except, exec; cbn [dispatch];
    unfold ensure_rapid_mode, ensure_program_mode, ensure_finished_mode, bind, gets;
    simpl;
    match goal with
    | |- context [state st =? ?t] => destruct (state st =? t)
    end; reflexivity.
Qed.

(** ** Holds *)

Lemma steady_answer (o : option Hold) :
  steady o ->
  exists g b, o = Some g /\ pred g (calls g) = Says b /\ steady (Some (asked g)).
Proof.
  intros (g & -> & Hg). destruct (Hg 0%nat) as [b Hb].
  rewrite Nat.add_0_r in Hb. exists g, b. repeat split; auto.
  exists (asked g). split; [reflexivity|]. intros k.
  destruct (Hg (S k)) as [b' Hb']. exists b'.
  cbn [asked pred calls]. now rewrite Nat.add_succ_r in Hb'.
Qed.

Lemma temp_loop_steady (ts : list (option Hold)) :
  Forall steady ts ->
  forall th fh,
    temp_loop ts th fh
    = (marked ts,
       Ok (th || existsb says_true ts,
           fh || existsb (fun o => negb (says_true o)) ts)).
Proof.
  induction 1 as [|o ts Ho Hts IH]; intros th fh.
  - simpl. now rewrite !orb_false_r.
  - destruct (steady_answer o Ho) as (g & b & -> & Hb & _).
    cbn [temp_loop ask marked map existsb says_true]. rewrite Hb.
    destruct b; rewrite IH; cbn [negb option_map asked orb].
    + now rewrite orb_true_r.
    + now rewrite orb_true_r.
Qed.

Lemma marked_pruned (ts : list (option Hold)) :
  Forall steady ts -> filter is_some (marked ts) = pass ts.
Proof.
  induction 1 as [|o ts Ho Hts IH]; [reflexivity|].
  destruct (steady_answer o Ho) as (g & b & -> & Hb & _).
  unfold marked, pass in *. cbn [map filter says_true]. rewrite Hb.
  destruct b; cbn [option_map is_some map]; now rewrite IH.
Qed.

Lemma marked_all_true (ts : list (option Hold)) :
  existsb (fun o => negb (says_true o)) ts = false -> marked ts = pass ts.
Proof.
  induction ts as [|o ts IH]; [reflexivity|].
  cbn [existsb]. intros H. apply orb_false_elim in H. destruct H as [H1 H2].
  apply negb_false_iff in H1.
  unfold marked, pass in *. cbn [map filter]. rewrite H1. cbn [map].
  now rewrite IH.
Qed.

(** One evaluation of [hold] over temporary holds that all answer. *)
Lemma hold_steady (st : Interpreter) :
  Forall steady (temp_holds st) ->
  temp_holds (exec hold st) = pass (temp_holds st)
  /\ outcome_of hold st
     = (if existsb says_true (temp_holds st) then Ok true
        else snd (perm_loop (holds st)))
  /\ (holds st = [] -> holds (exec hold st) = []).
Proof.
  intros Hs. unfold exec, outcome_of, hold.
  rewrite (temp_loop_steady _ Hs). cbn [orb].
  pose proof (marked_pruned _ Hs) as P.
  pose proof (marked_all_true (temp_holds st)) as Q.
  destruct (existsb (fun o => negb (says_true o)) (temp_holds st));
    destruct (existsb says_true (temp_holds st));
    cbn [fst snd temp_holds with_temp_holds holds with_holds];
    try (destruct (perm_loop (holds st)) as [hs r] eqn:L;
         cbn [fst snd temp_holds with_temp_holds holds with_holds]);
    repeat split; auto;
    intros E; rewrite E in L; simpl in L; now injection L as <- _.
Qed.

Lemma pass_steady (ts : list (option Hold)) :
  Forall steady ts -> Forall steady (pass ts).
Proof.
  induction 1 as [|o ts Ho Hts IH]; [constructor|].
  destruct (steady_answer o Ho) as (g & b & -> & Hb & Hn).
  unfold pass in *. cbn [filter says_true]. rewrite Hb.
  destruct b; cbn [map option_map]; [constructor|]; assumption.
Qed.

Lemma pass_app (a b : list (option Hold)) : pass (a ++ b) = pass a ++ pass b.
Proof. unfold pass. now rewrite filter_app, map_app. Qed.

Lemma pass_n_app (k : nat) (a b : list (option Hold)) :
  pass_n k (a ++ b) = pass_n k a ++ pass_n k b.
Proof.
  induction k as [|k IH]; [reflexivity|]. cbn [pass_n]. now rewrite IH, pass_app.
Qed.

Lemma pass_n_steady (k : nat) (ts : list (option Hold)) :
  Forall steady ts -> Forall steady (pass_n k ts).
Proof.
  intros H. induction k as [|k IH]; [assumption|]. now apply pass_steady.
Qed.

Lemma hold_n_steady (st : Interpreter) :
  Forall steady (temp_holds st) ->
  forall k, temp_holds (hold_n k st) = pass_n k (temp_holds st).
Proof.
  intros Hs k. induction k as [|k IH]; [reflexivity|].
  cbn [hold_n pass_n]. rewrite <- IH.
  apply hold_steady. rewrite IH. now apply pass_n_steady.
Qed.

Lemma hold_n_no_perm (st : Interpreter) :
  Forall steady (temp_holds st) -> holds st = [] ->
  forall k, holds (hold_n k st) = [].
Proof.
  intros Hs Hh k. induction k as [|k IH]; [assumption|].
  cbn [hold_n]. apply hold_steady; [|assumption].
  rewrite (hold_n_steady st Hs). now apply pass_n_steady.
Qed.

(** A hold that answers true [N] times stays for [N] passes, asked once in
    each, and is gone after one more. *)
Lemma pass_n_countdown (N : nat) (h : Hold) :
  (forall k, pred h (calls h + k)%nat = Says (k <? N)%nat) ->
  forall k,
    pass_n k [Some h]
    = if (k <=? N)%nat then [Some (mkHold (pred h) (calls h + k))] else [].
Proof.
  intros Hp k. induction k as [|k IH].
  - cbn [pass_n Nat.leb]. rewrite Nat.add_0_r. now destruct h.
  - cbn [pass_n]. rewrite IH.
    destruct (k <=? N)%nat eqn:E1.
    + apply Nat.leb_le in E1. unfold pass. cbn [filter says_true pred calls].
      rewrite Hp. destruct (k <? N)%nat eqn:E2.
      * apply Nat.ltb_lt in E2.
        replace (S k <=? N)%nat with true by (symmetry; apply Nat.leb_le; lia).
        cbn [map option_map asked pred calls]. now rewrite Nat.add_succ_r.
      * apply Nat.ltb_ge in E2.
        replace (S k <=? N)%nat with false by (symmetry; apply Nat.leb_gt; lia).
        reflexivity.
    + apply Nat.leb_gt in E1.
      replace (S k <=? N)%nat with false by (symmetry; apply Nat.leb_gt; lia).
      reflexivity.
Qed.

Lemma steady_countdown (N : nat) (h : Hold) :
  (forall k, pred h (calls h + k)%nat = Says (k <? N)%nat) -> steady (Some h).
Proof. intros Hp. exists h. split; [reflexivity|]. intros k. eauto. Qed.

(** C3: a temporary hold that answers true on its first [N] evaluations and
    false after, whatever other temporary holds stand before and behind it
    (as long as they answer), makes [hold] answer true on ticks 1 to [N];
    it is asked once on every tick and stays in the set through tick [N],
    the others coming and going as they would without it; on tick [N+1]
    it is taken out, and the answer of [hold] on that tick is the one it
    would give without it; from then on it is not in the set.  Alone, and
    with no permanent hold, [hold] answers false from tick [N+1] on. *)
Theorem temporary_hold_blocks_n_ticks (N : nat) (h : Hold)
        (before after : list (option Hold)) (st : Interpreter) :
  (forall k, pred h (calls h + k)%nat = Says (k <? N)%nat) ->
  Forall steady (before ++ after) ->
  temp_holds st = before ++ Some h :: after ->
  (forall k, (k < N)%nat -> outcome_of hold (hold_n k st) = Ok true)
  /\ (forall k, (k <= N)%nat ->
        temp_holds (hold_n k st)
        = pass_n k before ++ Some (mkHold (pred h) (calls h + k)) :: pass_n k after)
  /\ (forall k, (N < k)%nat ->
        temp_holds (hold_n k st) = pass_n k before ++ pass_n k after)
  /\ outcome_of hold (hold_n N st)
     = outcome_of hold
         (with_temp_holds (pass_n N before ++ pass_n N after) (hold_n N st))
  /\ (before ++ after = [] -> holds st = [] ->
      forall k, (N <= k)%nat -> outcome_of hold (hold_n k st) = Ok false).
Proof.
  intros Hp Hothers Ht.
  assert (Hb : Forall steady before) by (apply Forall_app in Hothers; tauto).
  assert (Ha : Forall steady after) by (apply Forall_app in Hothers; tauto).
  assert (Hall : Forall steady (temp_holds st)).
  { rewrite Ht. apply Forall_app. split; [assumption|].
    constructor; [now apply (steady_countdown N)|assumption]. }
  assert (T : forall k,
             temp_holds (hold_n k st)
             = pass_n k before
               ++ (if (k <=? N)%nat then [Some (mkHold (pred h) (calls h + k))] else [])
               ++ pass_n k after).
  { intros k. rewrite (hold_n_steady st Hall), Ht.
    change (before ++ Some h :: after) with (before ++ [Some h] ++ after).
    now rewrite !pass_n_app, (pass_n_countdown N h Hp). }
  assert (S1 : forall k, Forall steady (temp_holds (hold_n k st))).
  { intros k. rewrite (hold_n_steady st Hall). now apply pass_n_steady. }
  assert (Now : forall k,
             says_true (Some (mkHold (pred h) (calls h + k))) = (k <? N)%nat).
  { intros k. cbn [says_true pred calls]. rewrite Hp. now destruct (k <? N)%nat. }
  split; [|split; [|split; [|split]]].
  - intros k Hk.
    destruct (hold_steady _ (S1 k)) as (_ & O & _). rewrite O, T.
    replace (k <=? N)%nat with true by (symmetry; apply Nat.leb_le; lia).
    rewrite !existsb_app. cbn [existsb]. rewrite Now.
    replace (k <? N)%nat with true by (symmetry; apply Nat.ltb_lt; lia).
    cbn [orb]. now rewrite orb_true_r.
  - intros k Hk. rewrite T.
    replace (k <=? N)%nat with true by (symmetry; apply Nat.leb_le; lia).
    reflexivity.
  - intros k Hk. rewrite T.
    replace (k <=? N)%nat with false by (symmetry; apply Nat.leb_gt; lia).
    reflexivity.
  - destruct (hold_steady _ (S1 N)) as (_ & O & _). rewrite O, T.
    rewrite Nat.leb_refl.
    assert (S2 : Forall steady
                   (temp_holds
                      (with_temp_holds (pass_n N before ++ pass_n N after)
                                       (hold_n N st)))).
    { cbn [temp_holds with_temp_holds]. apply Forall_app.
      split; now apply pass_n_steady. }
    destruct (hold_steady _ S2) as (_ & O2 & _). rewrite O2.
    cbn [temp_holds with_temp_holds holds].
    rewrite !existsb_app. cbn [existsb]. rewrite Now, Nat.ltb_irrefl.
    cbn [orb]. reflexivity.
  - intros Hnone Hh k Hk.
    apply app_eq_nil in Hnone. destruct Hnone as [-> ->].
    destruct (hold_steady _ (S1 k)) as (_ & O & _). rewrite O, T.
    assert (E : forall j, pass_n j (@nil (option Hold)) = [])
      by (induction j as [|j IH]; [reflexivity | cbn [pass_n]; now rewrite IH]).
    rewrite !E. cbn [app].
    rewrite (hold_n_no_perm st Hall Hh).
    destruct (k <=? N)%nat; cbn [app existsb perm_loop snd]; [|reflexivity].
    rewrite Now. replace (k <? N)%nat with false
      by (symmetry; apply Nat.ltb_ge; lia).
    reflexivity.
Qed.

Lemma temporary_hold_blocks_n_ticks_witness :
  let h := countdown_hold 3 in
  let before := [Some (countdown_hold 1)] in
  let after := [Some (constant_hold true)] in
  let st := with_temp_holds (before ++ Some h :: after) fresh_interpreter in
  (forall k, (k < 3)%nat -> outcome_of hold (hold_n k st) = Ok true)
  /\ (forall k, (k <= 3)%nat ->
        temp_holds (hold_n k st)
        = pass_n k before ++ Some (mkHold (pred h) (calls h + k)) :: pass_n k after)
  /\ (forall k, (3 < k)%nat ->
        temp_holds (hold_n k st) = pass_n k before ++ pass_n k after)
  /\ outcome_of hold (hold_n 3 st)
     = outcome_of hold
         (with_temp_holds (pass_n 3 before ++ pass_n 3 after) (hold_n 3 st))
  /\ (before ++ after = [] -> holds st = [] ->
      forall k, (3 <= k)%nat -> outcome_of hold (hold_n k st) = Ok false).
Proof.
  apply (temporary_hold_blocks_n_ticks 3 (countdown_hold 3)
           [Some (countdown_hold 1)] [Some (constant_hold true)]
           (with_temp_holds
              ([Some (countdown_hold 1)]
                 ++ Some (countdown_hold 3) :: [Some (constant_hold true)])
              fresh_interpreter)).
  - intros k. reflexivity.
  - repeat constructor;
      (eexists; split; [reflexivity | intros k; eexists; reflexivity]).
  - reflexivity.
Defined.

(** The same run, evaluated: the first hold is released on the second
    tick while the counted one stays, asked on every tick; the counted one
    is released on the fourth tick while the last one stays. *)
Example countdown_hold_run :
  let st := with_temp_holds
              [Some (countdown_hold 1); Some (countdown_hold 3);
               Some (constant_hold true)] fresh_interpreter in
  temp_holds (hold_n 1 st)
  = [Some (mkHold (pred (countdown_hold 1)) 1);
     Some (mkHold (pred (countdown_hold 3)) 1);
     Some (mkHold (pred (constant_hold true)) 1)]
  /\ temp_holds (hold_n 2 st)
     = [Some (mkHold (pred (countdown_hold 3)) 2);
        Some (mkHold (pred (constant_hold true)) 2)]
  /\ temp_holds (hold_n 3 st)
     = [Some (mkHold (pred (countdown_hold 3)) 3);
        Some (mkHold (pred (constant_hold true)) 3)]
  /\ temp_holds (hold_n 4 st) = [Some (mkHold (pred (constant_hold true)) 4)].
Proof. repeat split. Qed.

(** Alone and with no permanent hold: held on ticks 1 and 2, not on 3. *)
Example countdown_hold_alone :
  let st := with_temp_holds [Some (countdown_hold 2)] fresh_interpreter in
  outcome_of hold st = Ok true
  /\ outcome_of hold (hold_n 1 st) = Ok true
  /\ outcome_of hold (hold_n 2 st) = Ok false
  /\ temp_holds (hold_n 3 st) = [].
Proof. repeat split. Qed.

(** ** The fetch *)

Lemma hold_frame (st : Interpreter) :
  spooled_item (exec hold st) = spooled_item st
  /\ context (exec hold st) = context st
  /\ settings (exec hold st) = settings st.
Proof.
  unfold exec, hold.
  destruct (temp_loop (temp_holds st) false false) as [ts [[th fh]|e]]; simpl; auto.
  destruct fh, th; simpl; auto;
    match goal with
    | |- context [perm_loop ?hs] => destruct (perm_loop hs); simpl; auto
    end.
Qed.

Lemma hold_nothing (st : Interpreter) :
  temp_holds st = [] -> holds st = [] -> hold st = (Ok false, st).
Proof.
  intros Ht Hh. destruct st. simpl in *. subst. reflexivity.
Qed.

Lemma fetch_pops (st : Interpreter) (j : value) (r : list value) :
  pending st = j :: r -> is_none j = false -> bound j = false ->
  pending (exec fetch_next_item_from_spooler st) = r.
Proof.
  unfold pending. intros Hq Hj Hb.
  unfold exec, fetch_next_item_from_spooler, bind, gets, peek, pop, modify.
  rewrite Hq. rewrite Hj. cbn [fst snd]. rewrite Hq.
  destruct j as [| | | | | |name [v|e] | | | | |name does out];
    try discriminate Hj; try discriminate Hb; try reflexivity.
  destruct e; reflexivity.
Qed.

(** ** One command of a lazy sequence per tick *)

Lemma command_iter (K : Constants) (l values : list value) (st : Interpreter) :
  command K (VIter l) values st = (Ok false, st).
Proof. reflexivity. Qed.

Lemma process_pull (K : Constants) (st st1 : Interpreter) (e : value)
      (rest : list value) :
  hold st = (Ok false, st1) ->
  spooled_item st1 = VIter (e :: rest) ->
  process_spooled_item K st
  = after_pull (command K e [] (with_spooled_item (VIter rest) st1)).
Proof.
  intros Hh Hs. unfold process_spooled_item.
  unfold bind at 1. rewrite Hh.
  unfold bind at 1. unfold plotplanner_process at 1, ret at 1.
  unfold bind at 1. unfold gets at 1. rewrite Hs. cbn [is_none].
  unfold bind at 1. rewrite command_iter.
  unfold try_except, bind at 1, next_spooled, bind at 1, gets. rewrite Hs.
  unfold bind at 1, modify, bind at 1, ret at 1.
  unfold after_pull.
  destruct (command K e [] (with_spooled_item (VIter rest) st1)) as [[[|]|x] s2];
    reflexivity.
Qed.

Lemma process_exhausted (K : Constants) (st st1 : Interpreter) :
  hold st = (Ok false, st1) ->
  spooled_item st1 = VIter [] ->
  process_spooled_item K st = (Ok tt, with_spooled_item VNone st1).
Proof.
  intros Hh Hs. unfold process_spooled_item.
  unfold bind at 1. rewrite Hh.
  unfold bind at 1. unfold plotplanner_process at 1, ret at 1.
  unfold bind at 1. unfold gets at 1. rewrite Hs. cbn [is_none].
  unfold bind at 1. rewrite command_iter.
  unfold try_except, bind at 1, next_spooled, bind at 1, gets. rewrite Hs.
  reflexivity.
Qed.

Lemma interpret_in_flight (K : Constants) (st : Interpreter) :
  is_none (spooled_item st) = false ->
  interpret K st = process_spooled_item K st.
Proof.
  intros H. unfold interpret, bind, gets, ret. rewrite H. now rewrite H.
Qed.

Lemma interpret_fetches_job (K : Constants) (st : Interpreter)
      (yields rest : list value) :
  spooled_item st = VNone -> pending st = VJob yields :: rest ->
  interpret K st
  = process_spooled_item K
      (with_spooled_item (VIter yields)
         (with_rapid_jog (opt_rapid_between (context st)) (opt_jog_mode (context st))
            (with_context (signal_queue (with_queue rest (context st))) st))).
Proof.
  unfold pending. intros Hs Hq.
  destruct st as [c s it hs ts m p rel las ra jo nr].
  destruct c as [x y orb ojm omin qu q em].
  cbn [spooled_item context queue] in Hs, Hq. subst it q.
  reflexivity.
Qed.

Lemma command_set_speed (K : Constants) (z : Z) (v : value) (values : list value)
      (st : Interpreter) :
  decode K z = Some COMMAND_SET_SPEED ->
  command K (VTuple [VInt z; v]) values st
  = (Ok true, with_settings (with_speed v (settings st)) st).
Proof.
  intros Hd. now rewrite (command_tuple_decoded K z _ [v] values st Hd).
Qed.

Lemma command_move (K : Constants) (z : Z) (x y : value) (values : list value)
      (st : Interpreter) :
  decode K z = Some COMMAND_MOVE ->
  command K (VTuple [VInt z; x; y]) values st
  = (Ok true, with_context (with_position x y (context st)) st).
Proof.
  intros Hd. now rewrite (command_tuple_decoded K z _ [x; y] values st Hd).
Qed.

(** C1, as the code has it: when the command pulled from the in-flight
    sequence is not recognized, the tick raises ValueError to its caller;
    the sequence stays in flight, one element shorter, and the pending
    queue is as it was. *)
Theorem unrecognized_command_raises (K : Constants) (st st1 : Interpreter)
        (e c : value) (rest : list value) :
  spooled_item st = VIter (e :: rest) ->
  hold st = (Ok false, st1) ->
  code_of e = Ok c -> as_int c = None ->
  interpret K st = (Raise ValueError, with_spooled_item (VIter rest) st1)
  /\ pending (exec (interpret K) st) = pending st.
Proof.
  intros Hs Hh Hc Hi.
  assert (Hf : spooled_item st1 = spooled_item st /\ context st1 = context st).
  { pose proof (hold_frame st) as F. unfold exec in F. rewrite Hh in F.
    cbn [snd] in F. tauto. }
  destruct Hf as [Hs1 Hc1]. rewrite Hs in Hs1.
  assert (E : interpret K st = (Raise ValueError, with_spooled_item (VIter rest) st1)).
  { rewrite interpret_in_flight by (now rewrite Hs).
    rewrite (process_pull K st st1 e rest Hh Hs1).
    now rewrite (command_not_int K e [] _ c Hc Hi). }
  split; [exact E|].
  unfold exec. rewrite E. unfold pending. cbn [snd context with_spooled_item].
  now rewrite Hc1.
Qed.

Lemma unrecognized_command_raises_witness :
  let st := with_spooled_item
              (VIter [VStr "G0"; VTuple [VInt 200; VInt 10]]) fresh_interpreter in
  interpret sample_constants st
  = (Raise ValueError,
     with_spooled_item (VIter [VTuple [VInt 200; VInt 10]]) (exec hold st))
  /\ pending (exec (interpret sample_constants) st) = pending st.
Proof.
  apply (unrecognized_command_raises sample_constants
           (with_spooled_item (VIter [VStr "G0"; VTuple [VInt 200; VInt 10]])
                              fresh_interpreter)
           (exec hold (with_spooled_item
                         (VIter [VStr "G0"; VTuple [VInt 200; VInt 10]])
                         fresh_interpreter))
           (VStr "G0") (VStr "G0") [VTuple [VInt 200; VInt 10]]);
    reflexivity.
Defined.

(** C1, as the claim has it (no exception leaves the tick and the rest of
    the sequence is dropped), fails on a sequence whose first element is a
    string: ValueError leaves the tick and the rest stays in flight. *)
Lemma unrecognized_command_not_recovered :
  ~ (forall (K : Constants) (st : Interpreter) (e c : value) (rest : list value),
        spooled_item st = VIter (e :: rest) ->
        temp_holds st = [] -> holds st = [] ->
        code_of e = Ok c -> as_int c = None ->
        outcome_of (interpret K) st = Ok tt
        /\ spooled_item (exec (interpret K) st) = VNone).
Proof.
  intros H.
  destruct (H sample_constants
              (with_spooled_item (VIter [VStr "G0"; VTuple [VInt 200; VInt 10]])
                                 fresh_interpreter)
              (VStr "G0") (VStr "G0") [VTuple [VInt 200; VInt 10]]
              eq_refl eq_refl eq_refl eq_refl eq_refl) as [H1 _].
  vm_compute in H1. discriminate H1.
Qed.

(** The tick after the failed one goes on with the same sequence. *)
Example unrecognized_command_next_tick :
  let st := with_spooled_item
              (VIter [VStr "G0"; VTuple [VInt 200; VInt 10]]) fresh_interpreter in
  let st1 := exec (interpret sample_constants) st in
  let st2 := exec (interpret sample_constants) st1 in
  outcome_of (interpret sample_constants) st = Raise ValueError
  /\ spooled_item st1 = VIter [VTuple [VInt 200; VInt 10]]
  /\ outcome_of (interpret sample_constants) st1 = Ok tt
  /\ speed (settings st2) = VInt 10.
Proof. vm_compute. repeat split. Qed.

Lemma interpret_pulls (K : Constants) (st s2 : Interpreter) (e : value)
      (rest : list value) :
  spooled_item st = VIter (e :: rest) ->
  temp_holds st = [] -> holds st = [] ->
  command K e [] (with_spooled_item (VIter rest) st) = (Ok true, s2) ->
  interpret K st = (Ok tt, s2).
Proof.
  intros Hs Ht Hh Hc.
  rewrite interpret_in_flight by (now rewrite Hs).
  rewrite (process_pull K st st e rest (hold_nothing st Ht Hh) Hs).
  now rewrite Hc.
Qed.

Lemma interpret_exhausted (K : Constants) (st : Interpreter) :
  spooled_item st = VIter [] ->
  temp_holds st = [] -> holds st = [] ->
  interpret K st = (Ok tt, with_spooled_item VNone st).
Proof.
  intros Hs Ht Hh.
  rewrite interpret_in_flight by (now rewrite Hs).
  exact (process_exhausted K st st (hold_nothing st Ht Hh) Hs).
Qed.

(** C7: with nothing in flight, no holds, and a job at the head of the
    queue that yields SET_SPEED(10) then MOVE(5,5), in a table where the
    chain takes the branches of SET_SPEED and of MOVE for their numbers:
    the first tick sets the speed to 10, the second puts the position at
    (5,5), the third empties the in-flight slot; none raises, and the
    fetch that the fourth tick starts with takes the next pending job off
    the queue. *)
Theorem lazy_sequence_three_ticks (K : Constants) (st : Interpreter)
        (rest : list value) :
  decode K (K COMMAND_SET_SPEED) = Some COMMAND_SET_SPEED ->
  decode K (K COMMAND_MOVE) = Some COMMAND_MOVE ->
  spooled_item st = VNone -> temp_holds st = [] -> holds st = [] ->
  pending st
  = VJob [VTuple [VInt (K COMMAND_SET_SPEED); VInt 10];
          VTuple [VInt (K COMMAND_MOVE); VInt 5; VInt 5]] :: rest ->
  let st1 := exec (interpret K) st in
  let st2 := exec (interpret K) st1 in
  let st3 := exec (interpret K) st2 in
  (outcome_of (interpret K) st = Ok tt
   /\ speed (settings st1) = VInt 10)
  /\ (outcome_of (interpret K) st1 = Ok tt
      /\ current_x (context st2) = VInt 5 /\ current_y (context st2) = VInt 5
      /\ speed (settings st2) = VInt 10)
  /\ (outcome_of (interpret K) st2 = Ok tt
      /\ spooled_item st3 = VNone /\ pending st3 = rest)
  /\ (forall j r, rest = j :: r -> is_none j = false -> bound j = false ->
        pending (exec fetch_next_item_from_spooler st3) = r).
Proof.
  intros HS HM Hs Ht Hh Hq.
  pose (s0 := with_rapid_jog (opt_rapid_between (context st)) (opt_jog_mode (context st))
                (with_context (signal_queue (with_queue rest (context st))) st)).
  pose (m := VTuple [VInt (K COMMAND_MOVE); VInt 5; VInt 5]).
  pose (s1 := with_settings (with_speed (VInt 10) (settings s0))
                (with_spooled_item (VIter [m]) s0)).
  pose (s2 := with_context (with_position (VInt 5) (VInt 5) (context s1))
                (with_spooled_item (VIter []) s1)).
  assert (E1 : interpret K st = (Ok tt, s1)).
  { rewrite (interpret_fetches_job K st _ rest Hs Hq).
    rewrite <- (interpret_in_flight K) by reflexivity.
    apply (interpret_pulls K
             (with_spooled_item
                (VIter [VTuple [VInt (K COMMAND_SET_SPEED); VInt 10]; m]) s0)
             s1 (VTuple [VInt (K COMMAND_SET_SPEED); VInt 10]) [m]);
      try reflexivity; try assumption.
    rewrite (command_set_speed K _ (VInt 10) [] _ HS). reflexivity. }
  assert (E2 : interpret K s1 = (Ok tt, s2)).
  { apply (interpret_pulls K s1 s2 m []); try reflexivity; try assumption.
    unfold m. rewrite (command_move K _ (VInt 5) (VInt 5) [] _ HM). reflexivity. }
  assert (E3 : interpret K s2 = (Ok tt, with_spooled_item VNone s2)).
  { apply interpret_exhausted; try reflexivity; assumption. }
  unfold exec, outcome_of. rewrite E1. cbn [fst snd]. rewrite E2. cbn [fst snd].
  rewrite E3. cbn [fst snd].
  repeat split.
  intros j r -> Hj Hb.
  apply (fetch_pops (with_spooled_item VNone s2) j r); auto.
Qed.

Lemma lazy_sequence_three_ticks_witness :
  let st := with_context
              (with_queue [VJob [VTuple [VInt 200; VInt 10];
                                 VTuple [VInt 10; VInt 5; VInt 5]];
                           VInt 300]
                          fresh_context)
              fresh_interpreter in
  let st1 := exec (interpret sample_constants) st in
  let st2 := exec (interpret sample_constants) st1 in
  let st3 := exec (interpret sample_constants) st2 in
  (outcome_of (interpret sample_constants) st = Ok tt
   /\ speed (settings st1) = VInt 10)
  /\ (outcome_of (interpret sample_constants) st1 = Ok tt
      /\ current_x (context st2) = VInt 5 /\ current_y (context st2) = VInt 5
      /\ speed (settings st2) = VInt 10)
  /\ (outcome_of (interpret sample_constants) st2 = Ok tt
      /\ spooled_item st3 = VNone /\ pending st3 = [VInt 300])
  /\ (forall j r, [VInt 300] = j :: r -> is_none j = false -> bound j = false ->
        pending (exec fetch_next_item_from_spooler st3) = r).
Proof.
  apply (lazy_sequence_three_ticks sample_constants
           (with_context
              (with_queue [VJob [VTuple [VInt 200; VInt 10];
                                 VTuple [VInt 10; VInt 5; VInt 5]];
                           VInt 300]
                          fresh_context)
              fresh_interpreter)
           [VInt 300]);
    reflexivity.
Defined.

(** The fourth tick of that run, evaluated: HOME is fetched and done. *)
Example lazy_sequence_fourth_tick :
  let st := with_context
              (with_queue [VJob [VTuple [VInt 200; VInt 10];
                                 VTuple [VInt 10; VInt 5; VInt 5]];
                           VInt 300]
                          fresh_context)
              fresh_interpreter in
  let st4 := interpret_n sample_constants 4 st in
  pending st4 = [] /\ spooled_item st4 = VNone
  /\ current_x (context st4) = VInt 0 /\ current_y (context st4) = VInt 0.
Proof. vm_compute. repeat split. Qed.

(** * Further properties of the code *)

(** ** The spooler as a queue *)

Lemma pop_n_all (q : list value) (c : Context) :
  queue c = q ->
  fst (pop_n (List.length q) c) = q /\ queue (snd (pop_n (List.length q) c)) = [].
Proof.
  revert c. induction q as [|j q IH]; intros c Hq.
  - simpl. auto.
  - simpl. unfold pop. rewrite Hq.
    specialize (IH (signal_queue (with_queue q c)) eq_refl).
    destruct (pop_n (List.length q) (signal_queue (with_queue q c))) as [vs c2].
    simpl in *. destruct IH as [-> ->]. auto.
Qed.

(** X1: first in, first out.  A job given to [job] comes out of [pop] after
    all the jobs that were pending, in their order, and then the queue is
    empty. *)
Theorem job_then_pop_fifo (element : value) (c : Context) :
  let n := List.length (queue c) in
  fst (pop_n (S n) (job [element] c)) = queue c ++ [element]
  /\ queue (snd (pop_n (S n) (job [element] c))) = [].
Proof.
  intros n.
  assert (E : S n = List.length (queue c ++ [element]))
    by (unfold n; rewrite length_app; simpl; lia).
  rewrite E. apply pop_n_all. reflexivity.
Qed.

(** X2: [pop] returns what [peek] shows; on an empty queue that is None,
    and then nothing is changed and nothing published; otherwise the queue
    loses its head only. *)
Theorem pop_agrees_with_peek (c : Context) :
  fst (pop c) = peek c
  /\ (queue c = [] -> pop c = (VNone, c))
  /\ (forall j q, queue c = j :: q ->
        fst (pop c) = j /\ queue (snd (pop c)) = q
        /\ emitted (snd (pop c)) = emitted c ++ [queue_signal (List.length q)]).
Proof.
  unfold pop, peek. destruct (queue c) as [|j q] eqn:E.
  - split; [reflexivity|]. split; [reflexivity|]. intros j q Hq. discriminate Hq.
  - split; [reflexivity|]. split; [intros Hq; discriminate Hq|].
    intros j' q' Hq. injection Hq as <- <-. cbn [fst snd]. auto.
Qed.

(** X3: [job] adds exactly one job whatever the number of its arguments:
    one argument goes in as it is, several (or none) as one tuple that is
    not spread. *)
Theorem job_adds_one (args : list value) (c : Context) :
  List.length (queue (job args c)) = S (List.length (queue c))
  /\ (forall element, args = [element] -> queue (job args c) = queue c ++ [element])
  /\ (List.length args <> 1%nat -> queue (job args c) = queue c ++ [VTuple args]).
Proof.
  destruct args as [|a [|b t]]; simpl; rewrite !length_app; simpl;
    repeat split; try lia; try reflexivity; try congruence;
    try (intros element H; first [discriminate H | injection H as <-; reflexivity]).
Qed.

Lemma last_event_emit (e : event) (c : Context) : last_event (emit e c) = Some e.
Proof.
  unfold last_event, emit. cbn [emitted]. rewrite map_app. cbn [map].
  apply last_last.
Qed.

(** X4: [jobs] spreads a list or a tuple: each element becomes a job of
    its own, in order, so a tuple command given to [jobs] is split into
    its code and its arguments; and it publishes the new length.  Anything
    that is neither a list nor a tuple becomes one job. *)
Theorem jobs_spreads_sequences (js : value) (c : Context) :
  (forall vs, elements js = Some vs ->
     queue (jobs js c) = queue c ++ vs
     /\ last_event (jobs js c)
        = Some (queue_signal (List.length (queue c) + List.length vs)))
  /\ (elements js = None ->
      queue (jobs js c) = queue c ++ [js]
      /\ last_event (jobs js c) = Some (queue_signal (S (List.length (queue c))))).
Proof.
  split.
  - intros vs H.
    assert (E : jobs js c = signal_queue (with_queue (queue c ++ vs) c))
      by (destruct js; try discriminate H; injection H as <-; reflexivity).
    rewrite E. split; [reflexivity|].
    unfold signal_queue. rewrite last_event_emit.
    cbn [queue with_queue]. now rewrite length_app.
  - intros H.
    assert (E : jobs js c = signal_queue (with_queue (queue c ++ [js]) c))
      by (destruct js; try discriminate H; reflexivity).
    rewrite E. split; [reflexivity|].
    unfold signal_queue. rewrite last_event_emit.
    cbn [queue with_queue]. rewrite length_app. cbn [List.length].
    now rewrite Nat.add_1_r.
Qed.

(** A tuple command and a list of two jobs, given to [jobs]. *)
Example jobs_on_sequences :
  queue (jobs (VTuple [VInt 10; VInt 1; VInt 2]) fresh_context)
  = [VInt 10; VInt 1; VInt 2]
  /\ queue (jobs (VList [VInt 300; VTuple [VInt 10; VInt 1; VInt 2]]) fresh_context)
     = [VInt 300; VTuple [VInt 10; VInt 1; VInt 2]]
  /\ queue (jobs (VJob [VInt 300]) fresh_context) = [VJob [VInt 300]].
Proof. repeat split. Qed.

Lemma list_remove_none (same : value -> value -> bool) (x : value) (l : list value) :
  list_remove same x l = None <-> (forall item, In item l -> same item x = false).
Proof.
  induction l as [|a l IH]; simpl.
  - split; [intros _ item []|reflexivity].
  - destruct (same a x) eqn:E.
    + split; [discriminate|]. intros H. rewrite (H a (or_introl eq_refl)) in E.
      discriminate E.
    + destruct (list_remove same x l) as [r|].
      * split; [discriminate|]. intros H.
        assert (C : Some r = None)
          by (apply IH; intros item Hi; apply H; now right).
        discriminate C.
      * split; [|reflexivity]. intros _ item [<-|Hi]; [assumption|].
        now apply (proj1 IH).
Qed.

Lemma list_remove_some (same : value -> value -> bool) (x : value)
      (l r : list value) :
  list_remove same x l = Some r ->
  exists before item after,
    l = before ++ item :: after /\ r = before ++ after
    /\ same item x = true
    /\ (forall b, In b before -> same b x = false).
Proof.
  revert r. induction l as [|a l IH]; simpl; intros r H; [discriminate H|].
  destruct (same a x) eqn:E.
  - injection H as <-. exists [], a, l. repeat split; auto. intros b [].
  - destruct (list_remove same x l) as [r'|]; [|discriminate H].
    injection H as <-.
    destruct (IH r' eq_refl) as (before & item & after & -> & -> & Hs & Hb).
    exists (a :: before), item, after. repeat split; auto.
    intros b [<-|Hi]; auto.
Qed.

(** X5: [remove] takes out the first job that is the given one and
    publishes the new length; when no pending job is the given one it
    raises ValueError, the queue is as it was and nothing is published. *)
Theorem remove_first_or_raise (same : value -> value -> bool) (element : value)
        (c : Context) :
  ((forall item, In item (queue c) -> same item element = false) ->
     remove same element c = (Raise ValueError, c))
  /\ (forall item, In item (queue c) -> same item element = true ->
      exists before found after,
        queue c = before ++ found :: after
        /\ same found element = true
        /\ (forall b, In b before -> same b element = false)
        /\ fst (remove same element c) = Ok tt
        /\ queue (snd (remove same element c)) = before ++ after
        /\ last_event (snd (remove same element c))
           = Some (queue_signal (List.length (before ++ after)))).
Proof.
  unfold remove. split.
  - intros H. apply list_remove_none in H. now rewrite H.
  - intros item Hi Hs.
    destruct (list_remove same element (queue c)) as [r|] eqn:E.
    + destruct (list_remove_some same element _ r E)
        as (before & found & after & Hq & -> & Hf & Hb).
      exists before, found, after. cbn [fst snd]. repeat split; auto.
      unfold signal_queue. rewrite last_event_emit. reflexivity.
    + rewrite (proj1 (list_remove_none same element (queue c)) E item Hi) in Hs.
      discriminate Hs.
Qed.

(** X6: of two [job_if_idle] in a row the second is always refused, and
    after [clear_queue] the first is always accepted. *)
Theorem job_if_idle_twice (e1 e2 : value) (c : Context) :
  fst (job_if_idle e2 (snd (job_if_idle e1 c))) = false
  /\ fst (job_if_idle e1 (clear_queue c)) = true.
Proof.
  split; [|reflexivity].
  unfold job_if_idle. destruct (queue c) as [|j q] eqn:E; simpl.
  - rewrite E. reflexivity.
  - rewrite E. reflexivity.
Qed.

(** ** Dispatch: what is swallowed and what escapes *)

(** X7: a code for which the chain takes the branch of a handler that this
    class lacks (LOCK, UNLOCK, PLOT, PLOT_START, SET_DIRECTION) is
    swallowed: [command] answers true and changes nothing, whatever the
    arguments. *)
Theorem unsupported_code_swallowed (K : Constants) (z : Z) (n : code)
        (args values : list value) (st : Interpreter) :
  decode K z = Some n -> unsupported n = true ->
  command K (VTuple (VInt z :: args)) values st = (Ok true, st).
Proof.
  intros Hd Hn. rewrite (command_tuple_decoded K z n args values st Hd).
  destruct n; try discriminate Hn; reflexivity.
Qed.

Lemma unsupported_code_swallowed_witness :
  command sample_constants (VTuple [VInt 301; VStr "rail"]) [] fresh_interpreter
  = (Ok true, fresh_interpreter).
Proof.
  exact (unsupported_code_swallowed sample_constants 301 COMMAND_LOCK
           [VStr "rail"] [] fresh_interpreter eq_refl eq_refl).
Defined.

(** X8: a code for which the chain takes one of the three jog branches
    never moves: [self.jog] is the attribute that [__init__] and the fetch
    bind to the jog-mode setting, so calling it raises TypeError, which
    leaves [command]; nothing is changed. *)
Theorem jog_codes_raise (K : Constants) (z : Z) (n : code) (x y : value)
        (values : list value) (st : Interpreter) :
  decode K z = Some n -> is_jog n = true -> callable (jog_attr st) = false ->
  command K (VTuple [VInt z; x; y]) values st = (Raise TypeError, st).
Proof.
  intros Hd Hn Hj. rewrite (command_tuple_decoded K z n [x; y] values st Hd).
  destruct n; try discriminate Hn;
    unfold bind, try_except, dispatch, call_jog, unpack2, bind, gets, ret, call, raise;
    destruct (jog_attr st); try discriminate Hj; reflexivity.
Qed.

Lemma jog_codes_raise_witness :
  command sample_constants (VTuple [VInt 30; VInt 7; VInt 9]) [] fresh_interpreter
  = (Raise TypeError, fresh_interpreter).
Proof.
  exact (jog_codes_raise sample_constants 30 COMMAND_JOG (VInt 7) (VInt 9) []
           fresh_interpreter eq_refl eq_refl eq_refl).
Defined.

(** X9: a code for which the chain takes a branch that reads its first
    value (the SET_ branches with a value, SET_POSITION, WAIT), given no
    value, raises IndexError out of [command] and changes nothing. *)
Theorem missing_value_raises (K : Constants) (z : Z) (n : code)
        (values : list value) (st : Interpreter) :
  decode K z = Some n -> reads_first_value n = true ->
  command K (VTuple [VInt z]) values st = (Raise IndexError, st).
Proof.
  intros Hd Hn. rewrite (command_tuple_decoded K z n [] values st Hd).
  destruct n; try discriminate Hn; reflexivity.
Qed.

Lemma missing_value_raises_witness :
  command sample_constants (VTuple [VInt 203]) [] fresh_interpreter
  = (Raise IndexError, fresh_interpreter).
Proof.
  exact (missing_value_raises sample_constants 203 COMMAND_SET_PPI []
           fresh_interpreter eq_refl eq_refl).
Defined.

Lemma command_wrong_arity (K : Constants) (z : Z) (n : code)
      (args values : list value) (st : Interpreter) :
  decode K z = Some n -> unpacks_pair n = true -> List.length args <> 2%nat ->
  command K (VTuple (VInt z :: args)) values st = (Raise ValueError, st).
Proof.
  intros Hd Hn Ha. rewrite (command_tuple_decoded K z n args values st Hd).
  destruct args as [|a [|b [|c t]]]; try (now elim Ha);
    destruct n; try discriminate Hn; reflexivity.
Qed.

(** X10: a code for which the chain takes a branch that unpacks a pair
    (CUT, MOVE and the jog branches), given any number of values but two,
    raises ValueError out of [command] and changes nothing. *)
Theorem wrong_arity_raises (K : Constants) (z : Z) (n : code)
        (args values : list value) (st : Interpreter) :
  decode K z = Some n -> unpacks_pair n = true -> List.length args <> 2%nat ->
  command K (VTuple (VInt z :: args)) values st = (Raise ValueError, st).
Proof. exact (command_wrong_arity K z n args values st). Qed.

Lemma wrong_arity_raises_witness :
  command sample_constants (VTuple [VInt 11; VInt 4]) [] fresh_interpreter
  = (Raise ValueError, fresh_interpreter).
Proof.
  exact (wrong_arity_raises sample_constants 11 COMMAND_CUT [VInt 4] []
           fresh_interpreter eq_refl eq_refl ltac:(discriminate)).
Defined.

(** X11: the branches of SET_POWER and SET_PPI store before they compare:
    given a value that is no number they leave it in [settings.power] and
    raise TypeError, which leaves [command]. *)
Theorem power_stored_before_checked (K : Constants) (z : Z) (m : code) (v : value)
        (values : list value) (st : Interpreter) :
  decode K z = Some m -> m = COMMAND_SET_POWER \/ m = COMMAND_SET_PPI ->
  numeric v = false ->
  command K (VTuple [VInt z; v]) values st
  = (Raise TypeError, with_settings (with_power v (settings st)) st).
Proof.
  intros Hd Hm Hv. unfold numeric in Hv.
  rewrite (command_tuple_decoded K z m [v] values st Hd).
  destruct Hm as [-> | ->];
    unfold bind, try_except, dispatch, item, set_power, set_ppi, bind, store_power,
      modify, gets, py_gt, ret, raise;
    cbn [nth_error fst snd settings with_settings power with_power];
    (destruct (as_number v); [discriminate Hv|]); reflexivity.
Qed.

Lemma power_stored_before_checked_witness :
  command sample_constants (VTuple [VInt 203; VStr "full"]) [] fresh_interpreter
  = (Raise TypeError,
     with_settings (with_power (VStr "full") (settings fresh_interpreter))
                   fresh_interpreter).
Proof.
  exact (power_stored_before_checked sample_constants 203 COMMAND_SET_PPI
           (VStr "full") [] fresh_interpreter eq_refl (or_intror eq_refl) eq_refl).
Defined.

(** X12: the branch of SIGNAL publishes only with a name and at least one
    more value: then the name and the rest go out as one signal; with the
    name alone, or with nothing, [command] answers true and publishes
    nothing. *)
Theorem signal_needs_two_values (K : Constants) (z : Z) (args values : list value)
        (st : Interpreter) :
  decode K z = Some COMMAND_SIGNAL ->
  command K (VTuple (VInt z :: args)) values st
  = (Ok true,
     match args with
     | name :: a :: rest => with_context (emit (Signal name (a :: rest)) (context st)) st
     | _ => st
     end).
Proof.
  intros Hd. rewrite (command_tuple_decoded K z _ args values st Hd).
  destruct args as [|n [|a t]]; reflexivity.
Qed.

Lemma signal_needs_two_values_witness :
  command sample_constants (VTuple [VInt 360; VStr "done"; VInt 1; VInt 2]) []
          fresh_interpreter
  = (Ok true,
     with_context (emit (Signal (VStr "done") [VInt 1; VInt 2])
                        (context fresh_interpreter))
                  fresh_interpreter).
Proof.
  exact (signal_needs_two_values sample_constants 360
           [VStr "done"; VInt 1; VInt 2] [] fresh_interpreter eq_refl).
Defined.

(** The name alone goes nowhere. *)
Example signal_with_name_alone :
  command sample_constants (VTuple [VInt 360; VStr "done"]) [] fresh_interpreter
  = (Ok true, fresh_interpreter).
Proof. reflexivity. Qed.

(** X13: the branch of FUNCTION calls its first value once when that is
    callable, and does nothing otherwise; what the callable calls back in
    the interpreter is done once, in order; an AttributeError out of the
    callee is swallowed, any other exception leaves [command]. *)
Theorem function_code_calls_once (K : Constants) (z : Z) (args values : list value)
        (st : Interpreter) :
  decode K z = Some COMMAND_FUNCTION ->
  command K (VTuple (VInt z :: args)) values st
  = match args with
    | VFunc name out :: _ =>
        (swallowed out, with_context (emit (Called name) (context st)) st)
    | VBound name does out :: _ =>
        (swallowed out,
         run_deeds does (with_context (emit (Called name) (context st)) st))
    | _ => (Ok true, st)
    end.
Proof.
  intros Hd. rewrite (command_tuple_decoded K z _ args values st Hd).
  destruct args as [|t r]; [reflexivity|].
  destruct t; try reflexivity; destruct out as [v|e]; try reflexivity;
    destruct e; reflexivity.
Qed.

Lemma function_code_calls_once_witness :
  command sample_constants
    (VTuple [VInt 350;
             VBound "mark" [DoSetProp 4; DoEnsure ToProgram] (Throws AttributeError)])
    [] fresh_interpreter
  = (swallowed (Throws AttributeError),
     run_deeds [DoSetProp 4; DoEnsure ToProgram]
       (with_context (emit (Called "mark") (context fresh_interpreter))
                     fresh_interpreter)).
Proof.
  exact (function_code_calls_once sample_constants 350
           [VBound "mark" [DoSetProp 4; DoEnsure ToProgram] (Throws AttributeError)]
           [] fresh_interpreter eq_refl).
Defined.

(** That call, evaluated: the register and the mode are those the callee
    set, and [command] answers true. *)
Example function_code_calls_back :
  let r := command sample_constants
             (VTuple [VInt 350;
                      VBound "mark" [DoSetProp 4; DoEnsure ToProgram]
                             (Throws AttributeError)])
             [] fresh_interpreter in
  fst r = Ok true /\ properties (snd r) = 4
  /\ state (snd r) = INTERPRETER_STATE_PROGRAM.
Proof. repeat split. Qed.

(** The empty tuple has no code. *)
Lemma command_empty_tuple (K : Constants) (values : list value) (st : Interpreter) :
  command K (VTuple []) values st = (Raise IndexError, st).
Proof. reflexivity. Qed.

(** ** Realtime commands *)

Lemma py_eq_int (z k : Z) : py_eq (VInt z) k = (z =? k).
Proof.
  unfold py_eq, as_number, Qeq_bool, inject_Z. cbn [Qnum Qden].
  now rewrite !Z.mul_1_r.
Qed.

Lemma rt_chain_complete (n : rt_code) : In n rt_chain.
Proof. destruct n; simpl; tauto. Qed.

Lemma decode_rt_code (R : RealtimeConstants) (n : rt_code) :
  distinct_rt R -> decode_rt R (VInt (R n)) = Some n.
Proof.
  intros HR. unfold decode_rt.
  destruct (find (fun m => py_eq (VInt (R n)) (R m)) rt_chain) as [m|] eqn:E.
  - apply find_some in E. destruct E as [_ E].
    rewrite py_eq_int in E. apply Z.eqb_eq in E. apply HR in E. now subst.
  - pose proof (find_none _ _ E n (rt_chain_complete n)) as F. cbv beta in F.
    now rewrite py_eq_int, Z.eqb_refl in F.
Qed.

Lemma sample_realtime_distinct : distinct_rt sample_realtime.
Proof.
  intros a b; destruct a; destruct b; simpl; intros H;
    first [reflexivity | discriminate H].
Qed.

(** X14: of the realtime codes only RESET and STATUS do anything in this
    class: every other one, and every value that is no realtime code at
    all, is answered by doing nothing, without an exception. *)
Theorem realtime_mostly_noop (R : RealtimeConstants) (cmd : value)
        (values : list value) (st : Interpreter) :
  distinct_rt R ->
  (forall n, cmd = VInt (R n) -> n <> REALTIME_RESET -> n <> REALTIME_STATUS ->
     realtime_command R cmd values st = (Ok tt, st))
  /\ ((forall n, py_eq cmd (R n) = false) ->
      realtime_command R cmd values st = (Ok tt, st)).
Proof.
  intros HR. split.
  - intros n -> H1 H2. unfold realtime_command. rewrite (decode_rt_code R n HR).
    destruct n; try congruence; reflexivity.
  - intros H. unfold realtime_command.
    destruct (decode_rt R cmd) as [m|] eqn:E; [|reflexivity].
    unfold decode_rt in E. apply find_some in E. destruct E as [_ E].
    rewrite H in E. discriminate E.
Qed.

Lemma realtime_mostly_noop_witness :
  (forall n, VInt 1001 = VInt (sample_realtime n) ->
     n <> REALTIME_RESET -> n <> REALTIME_STATUS ->
     realtime_command sample_realtime (VInt 1001) [] fresh_interpreter
     = (Ok tt, fresh_interpreter))
  /\ ((forall n, py_eq (VInt 1001) (sample_realtime n) = false) ->
      realtime_command sample_realtime (VInt 1001) [] fresh_interpreter
      = (Ok tt, fresh_interpreter)).
Proof.
  exact (realtime_mostly_noop sample_realtime (VInt 1001) [] fresh_interpreter
           sample_realtime_distinct).
Defined.


(** A fresh interpreter reports; one whose speed is None raises TypeError,
    one whose position is too large an int raises OverflowError, and a
    one-element tuple formats as its element. *)
Example status_cases :
  fst (status fresh_interpreter) = Ok tt
  /\ status (exec (set_speed VNone) fresh_interpreter)
     = (Raise TypeError, exec (set_speed VNone) fresh_interpreter)
  /\ fst (status (exec (set_current (VInt (10 ^ 400)) (VInt 0)) fresh_interpreter))
     = Raise OverflowError
  /\ fst (status (exec (set_current (VTuple [VInt 3]) (VInt 0)) fresh_interpreter))
     = Ok tt
  /\ fst (status (exec (set_current (VTuple [VInt 3; VInt 4]) (VInt 0))
                      fresh_interpreter))
     = Raise TypeError.
Proof. vm_compute. repeat split. Qed.

(** ** Ticks that make no progress *)

Lemma interpret_peeks_none (K : Constants) (st : Interpreter) :
  spooled_item st = VNone -> peek (context st) = VNone ->
  interpret K st
  = if quit (context st)
    then (Ok tt, with_context (emit Stopped (context st)) st)
    else (Ok tt, st).
Proof.
  intros Hs Hp.
  unfold interpret, fetch_next_item_from_spooler, bind, gets, ret.
  rewrite Hs. cbn [is_none]. rewrite Hp. cbn [is_none]. rewrite Hs.
  cbn [is_none]. now destruct (quit (context st)).
Qed.

(** X16: with nothing in flight, a tick that peeks None does nothing (or
    stops the context when [quit] is set), and it peeks None both on an
    empty queue and on a None job at the head: such a job is never popped,
    so the jobs behind it are never reached. *)
Theorem none_at_head_starves (K : Constants) (st : Interpreter) :
  spooled_item st = VNone -> peek (context st) = VNone ->
  (quit (context st) = false -> forall n, interpret_n K n st = st)
  /\ (quit (context st) = true ->
      interpret K st = (Ok tt, with_context (emit Stopped (context st)) st))
  /\ pending (exec (interpret K) st) = pending st.
Proof.
  intros Hs Hp. pose proof (interpret_peeks_none K st Hs Hp) as E.
  repeat split.
  - intros Hq n. induction n as [|n IH]; [reflexivity|].
    simpl. rewrite IH. unfold exec. now rewrite E, Hq.
  - intros Hq. now rewrite E, Hq.
  - unfold exec. rewrite E. now destruct (quit (context st)).
Qed.

Lemma none_at_head_starves_witness :
  let st := with_context (with_queue [VNone; VInt 300] fresh_context)
                         fresh_interpreter in
  (quit (context st) = false -> forall n, interpret_n sample_constants n st = st)
  /\ (quit (context st) = true ->
      interpret sample_constants st
      = (Ok tt, with_context (emit Stopped (context st)) st))
  /\ pending (exec (interpret sample_constants) st) = pending st.
Proof.
  exact (none_at_head_starves sample_constants
           (with_context (with_queue [VNone; VInt 300] fresh_context)
                         fresh_interpreter)
           eq_refl eq_refl).
Defined.

(** X17: while [hold] answers true a tick does nothing with the job in
    flight: it stays in flight, and the context and the settings are as
    they were. *)
Theorem held_tick_makes_no_progress (K : Constants) (st st1 : Interpreter) :
  is_none (spooled_item st) = false ->
  hold st = (Ok true, st1) ->
  interpret K st = (Ok tt, st1)
  /\ spooled_item st1 = spooled_item st
  /\ context st1 = context st
  /\ settings st1 = settings st.
Proof.
  intros Hs Hh. split.
  - rewrite (interpret_in_flight K st Hs).
    unfold process_spooled_item. unfold bind at 1. now rewrite Hh.
  - pose proof (hold_frame st) as F. unfold exec in F. rewrite Hh in F. exact F.
Qed.

Lemma held_tick_makes_no_progress_witness :
  let st := with_holds [constant_hold true]
              (with_spooled_item (VTuple [VInt 300]) fresh_interpreter) in
  interpret sample_constants st = (Ok tt, exec hold st)
  /\ spooled_item (exec hold st) = spooled_item st
  /\ context (exec hold st) = context st
  /\ settings (exec hold st) = settings st.
Proof.
  exact (held_tick_makes_no_progress sample_constants
           (with_holds [constant_hold true]
              (with_spooled_item (VTuple [VInt 300]) fresh_interpreter))
           (exec hold
              (with_holds [constant_hold true]
                 (with_spooled_item (VTuple [VInt 300]) fresh_interpreter)))
           eq_refl eq_refl).
Defined.

Lemma process_raising (K : Constants) (st : Interpreter) (e : exn) :
  temp_holds st = [] -> holds st = [] ->
  is_none (spooled_item st) = false ->
  command K (spooled_item st) [] st = (Raise e, st) ->
  interpret K st = (Raise e, st).
Proof.
  intros Ht Hh Hs Hc.
  rewrite (interpret_in_flight K st Hs).
  unfold process_spooled_item. unfold bind at 1.
  rewrite (hold_nothing st Ht Hh).
  unfold bind at 1, plotplanner_process, ret at 1, bind at 1, gets at 1.
  rewrite Hs. unfold bind at 1. now rewrite Hc.
Qed.

(** X18: a single command in flight whose dispatch raises is never
    cleared.  With no holds, a command for which the chain takes the branch
    of CUT, MOVE or a jog code, without exactly two values, raises
    ValueError on every tick and the interpreter stays as it is, so no
    later job is ever fetched. *)
Theorem bad_command_jams_the_tick (K : Constants) (z : Z) (n : code)
        (args : list value) (st : Interpreter) :
  decode K z = Some n -> unpacks_pair n = true -> List.length args <> 2%nat ->
  temp_holds st = [] -> holds st = [] ->
  spooled_item st = VTuple (VInt z :: args) ->
  forall k, interpret K (interpret_n K k st) = (Raise ValueError, st).
Proof.
  intros Hd Hn Ha Ht Hh Hs.
  assert (E : interpret K st = (Raise ValueError, st)).
  { apply process_raising; try assumption.
    - now rewrite Hs.
    - rewrite Hs. now apply (command_wrong_arity K z n). }
  assert (F : forall k, interpret_n K k st = st).
  { induction k as [|k IH]; [reflexivity|].
    simpl. rewrite IH. unfold exec. now rewrite E. }
  intros k. now rewrite F.
Qed.

Lemma bad_command_jams_the_tick_witness :
  interpret sample_constants
    (interpret_n sample_constants 3
       (with_spooled_item (VTuple [VInt 10; VInt 4]) fresh_interpreter))
  = (Raise ValueError,
     with_spooled_item (VTuple [VInt 10; VInt 4]) fresh_interpreter).
Proof.
  exact (bad_command_jams_the_tick sample_constants 10 COMMAND_MOVE [VInt 4]
           (with_spooled_item (VTuple [VInt 10; VInt 4]) fresh_interpreter)
           eq_refl eq_refl ltac:(discriminate) eq_refl eq_refl eq_refl 3%nat).
Defined.

(** ** What the fetch makes of a job *)

(** X19: a job the fetch can do nothing with (a float, a string, a started
    iterator, any object that neither has [generate] nor can be called, or
    a callable that raises TypeError) is popped and dropped: the tick
    returns with nothing in flight and the job is gone from the queue. *)
Theorem unusable_job_dropped (K : Constants) (st : Interpreter) (j : value)
        (rest : list value) :
  spooled_item st = VNone -> pending st = j :: rest -> unusable j = true ->
  outcome_of (interpret K) st = Ok tt
  /\ spooled_item (exec (interpret K) st) = VNone
  /\ pending (exec (interpret K) st) = rest
  /\ settings (exec (interpret K) st) = settings st.
Proof.
  unfold pending. intros Hs Hq Hj.
  destruct st as [c s it hs ts m p rel las ra jo nr].
  destruct c as [x y orb ojm omin qu q em].
  cbn [spooled_item context queue] in Hs, Hq. subst it q.
  destruct j as [| | | | | |name [v|e] | | | | |]; try discriminate Hj;
    try (destruct e; try discriminate Hj);
    unfold outcome_of, exec, pending; destruct qu; repeat split.
Qed.

Lemma unusable_job_dropped_witness :
  let st := with_context (with_queue [VStr "M3"; VInt 300] fresh_context)
                         fresh_interpreter in
  outcome_of (interpret sample_constants) st = Ok tt
  /\ spooled_item (exec (interpret sample_constants) st) = VNone
  /\ pending (exec (interpret sample_constants) st) = [VInt 300]
  /\ settings (exec (interpret sample_constants) st) = settings st.
Proof.
  exact (unusable_job_dropped sample_constants
           (with_context (with_queue [VStr "M3"; VInt 300] fresh_context)
                         fresh_interpreter)
           (VStr "M3") [VInt 300] eq_refl eq_refl eq_refl).
Defined.

(** X20: a bare integer job is the one-element tuple of it: a tick that
    fetches the one does what a tick that fetches the other does. *)
Theorem int_job_is_one_tuple (K : Constants) (st : Interpreter) (z : Z)
        (rest : list value) :
  spooled_item st = VNone ->
  interpret K (with_context (with_queue (VInt z :: rest) (context st)) st)
  = interpret K (with_context (with_queue (VTuple [VInt z] :: rest) (context st)) st).
Proof.
  intros Hs.
  destruct st as [c s it hs ts m p rel las ra jo nr].
  destruct c as [x y orb ojm omin qu q em].
  cbn [spooled_item] in Hs. subst it. reflexivity.
Qed.

Lemma int_job_is_one_tuple_witness :
  interpret sample_constants
    (with_context (with_queue [VInt 300] (context fresh_interpreter)) fresh_interpreter)
  = interpret sample_constants
      (with_context (with_queue [VTuple [VInt 300]] (context fresh_interpreter))
                    fresh_interpreter).
Proof.
  exact (int_job_is_one_tuple sample_constants fresh_interpreter 300 [] eq_refl).
Defined.

(** X22: after [reset], also through the realtime RESET code in the middle
    of a sequence, the next tick finds nothing to do: it returns at once
    and leaves the interpreter as [reset] left it. *)
Theorem tick_after_reset_is_idle (K : Constants) (R : RealtimeConstants)
        (values : list value) (st : Interpreter) :
  distinct_rt R -> quit (context st) = false ->
  realtime_command R (VInt (R REALTIME_RESET)) values st = (Ok tt, exec reset st)
  /\ interpret K (exec reset st) = (Ok tt, exec reset st)
  /\ settings (exec reset st) = settings st
  /\ current_x (context (exec reset st)) = current_x (context st)
  /\ current_y (context (exec reset st)) = current_y (context st).
Proof.
  intros HR Hq. repeat split.
  - unfold realtime_command. now rewrite (decode_rt_code R _ HR).
  - unfold interpret, fetch_next_item_from_spooler, bind, gets, ret, exec, reset,
      bind, modify.
    cbn. now rewrite Hq.
Qed.

Lemma tick_after_reset_is_idle_witness :
  let st := with_spooled_item (VIter [VTuple [VInt 10; VInt 1; VInt 2]])
                              fresh_interpreter in
  realtime_command sample_realtime (VInt 1003) [] st = (Ok tt, exec reset st)
  /\ interpret sample_constants (exec reset st) = (Ok tt, exec reset st)
  /\ settings (exec reset st) = settings st
  /\ current_x (context (exec reset st)) = current_x (context st)
  /\ current_y (context (exec reset st)) = current_y (context st).
Proof.
  exact (tick_after_reset_is_idle sample_constants sample_realtime []
           (with_spooled_item (VIter [VTuple [VInt 10; VInt 1; VInt 2]])
                              fresh_interpreter)
           sample_realtime_distinct eq_refl).
Defined.

(** ** Holds that raise *)

Lemma hold_pipe (st : Interpreter) (k : nat) :
  temp_holds st = [Some (mkHold (pred pipe_hold) k)] ->
  hold st = (Raise AttributeError,
             with_temp_holds [Some (mkHold (pred pipe_hold) (S k))] st).
Proof. intros Ht. unfold hold. rewrite Ht. reflexivity. Qed.

(** X23: the branch of WAIT_FINISH installs a temporary hold that reads
    [self.pipe], which this class does not have: from then on every [hold]
    raises AttributeError and keeps the hold, so every tick with a job in
    flight raises, and the job makes no progress. *)
Theorem wait_finish_jams_hold (K : Constants) (z : Z) (st : Interpreter) :
  decode K z = Some COMMAND_WAIT_FINISH -> temp_holds st = [] ->
  command K (VInt z) [] st = (Ok true, exec wait_finish st)
  /\ (forall n, outcome_of hold (hold_n n (exec wait_finish st)) = Raise AttributeError)
  /\ (is_none (spooled_item st) = false ->
      interpret K (exec wait_finish st)
      = (Raise AttributeError, exec hold (exec wait_finish st))
      /\ spooled_item (exec hold (exec wait_finish st)) = spooled_item st).
Proof.
  intros Hd Ht.
  assert (T : forall n, temp_holds (hold_n n (exec wait_finish st))
                        = [Some (mkHold (pred pipe_hold) n)]).
  { induction n as [|n IH].
    - unfold exec, wait_finish, modify. simpl. now rewrite Ht.
    - simpl. unfold exec at 1. now rewrite (hold_pipe _ n IH). }
  repeat split.
  - now rewrite (command_decoded K (VInt z) (VInt z) [] st z _ eq_refl eq_refl Hd).
  - intros n. unfold outcome_of. now rewrite (hold_pipe _ n (T n)).
  - rewrite (interpret_in_flight K) by assumption.
    pose proof (hold_pipe (exec wait_finish st) 0%nat (T 0%nat)) as HP.
    change (exec hold (exec wait_finish st)) with (snd (hold (exec wait_finish st))).
    unfold process_spooled_item. unfold bind at 1. now rewrite HP.
  - now rewrite (proj1 (hold_frame _)).
Qed.

Lemma wait_finish_jams_hold_witness :
  let st := with_spooled_item (VIter [VInt 300]) fresh_interpreter in
  command sample_constants (VInt 21) [] st = (Ok true, exec wait_finish st)
  /\ (forall n, outcome_of hold (hold_n n (exec wait_finish st)) = Raise AttributeError)
  /\ (is_none (spooled_item st) = false ->
      interpret sample_constants (exec wait_finish st)
      = (Raise AttributeError, exec hold (exec wait_finish st))
      /\ spooled_item (exec hold (exec wait_finish st)) = spooled_item st).
Proof.
  exact (wait_finish_jams_hold sample_constants 21
           (with_spooled_item (VIter [VInt 300]) fresh_interpreter)
           eq_refl eq_refl).
Defined.

Lemma hold_none_entry (st : Interpreter) (rest : list (option Hold)) :
  temp_holds st = None :: rest ->
  outcome_of hold st = Raise TypeError
  /\ temp_holds (exec hold st) = None :: rest.
Proof. intros Ht. unfold outcome_of, exec, hold. rewrite Ht. auto. Qed.

(** X24: when a temporary hold raises behind one that has just answered
    false, the pass stops with the released one overwritten by None and not
    yet pruned; every later [hold] then raises TypeError on that entry. *)
Theorem raising_hold_leaves_none (st : Interpreter) (h1 h2 : Hold)
        (rest : list (option Hold)) (e : exn) :
  temp_holds st = Some h1 :: Some h2 :: rest ->
  pred h1 (calls h1) = Says false -> pred h2 (calls h2) = Fails e ->
  outcome_of hold st = Raise e
  /\ temp_holds (exec hold st)
     = None :: Some (mkHold (pred h2) (S (calls h2))) :: rest
  /\ (forall n, outcome_of hold (hold_n (S n) st) = Raise TypeError).
Proof.
  intros Ht H1 H2.
  assert (E : outcome_of hold st = Raise e
              /\ temp_holds (exec hold st)
                 = None :: Some (mkHold (pred h2) (S (calls h2))) :: rest).
  { unfold outcome_of, exec, hold. rewrite Ht. simpl. rewrite H1, H2. auto. }
  destruct E as [E1 E2]. repeat split; auto.
  assert (T : forall n, temp_holds (hold_n (S n) st)
                        = None :: Some (mkHold (pred h2) (S (calls h2))) :: rest).
  { induction n as [|n IH]; [exact E2|].
    change (hold_n (S (S n)) st) with (exec hold (hold_n (S n) st)).
    now apply hold_none_entry. }
  intros n. now apply (hold_none_entry _ _ (T n)).
Qed.

Lemma raising_hold_leaves_none_witness :
  let st := with_temp_holds [Some (constant_hold false); Some pipe_hold]
                            fresh_interpreter in
  outcome_of hold st = Raise AttributeError
  /\ temp_holds (exec hold st)
     = None :: Some (mkHold (pred pipe_hold) (S (calls pipe_hold))) :: []
  /\ (forall n, outcome_of hold (hold_n (S n) st) = Raise TypeError).
Proof.
  exact (raising_hold_leaves_none
           (with_temp_holds [Some (constant_hold false); Some pipe_hold]
                            fresh_interpreter)
           (constant_hold false) pipe_hold [] AttributeError
           eq_refl eq_refl eq_refl).
Defined.

Lemma temp_loop_fail_sticky (ts : list (option Hold)) :
  forall th ts' th' fh',
    temp_loop ts th true = (ts', Ok (th', fh')) -> fh' = true.
Proof.
  induction ts as [|o ts IH]; intros th ts' th' fh' E; simpl in E.
  - now injection E as _ _ <-.
  - destruct o as [h|]; [|discriminate E].
    destruct (pred h (calls h)) as [[|]|e]; [| |discriminate E].
    + destruct (temp_loop ts true true) as [r out] eqn:L.
      injection E as _ ->. now apply (IH _ _ _ _ L).
    + destruct (temp_loop ts th true) as [r out] eqn:L.
      injection E as _ ->. now apply (IH _ _ _ _ L).
Qed.

Lemma temp_loop_pruned (ts : list (option Hold)) :
  Forall (fun o => is_some o = true) ts ->
  forall th fh ts' th' fh',
    temp_loop ts th fh = (ts', Ok (th', fh')) ->
    List.length ts' = List.length ts
    /\ (fh' = false -> Forall (fun o => is_some o = true) ts')
    /\ (th' = false -> th = false /\ Forall (fun o => is_some o = false) ts').
Proof.
  induction 1 as [|o ts Ho Hts IH]; intros th fh ts' th' fh' E.
  - simpl in E. injection E as <- <- <-. auto.
  - destruct o as [h|]; [|discriminate Ho]. simpl in E.
    destruct (pred h (calls h)) as [[|]|e]; [| |discriminate E].
    + destruct (temp_loop ts true fh) as [r out] eqn:L.
      injection E as <- ->.
      destruct (IH _ _ _ _ _ L) as (I1 & I2 & I3).
      split; [simpl; now rewrite I1|]. split.
      * intros Hf. constructor; [reflexivity | now apply I2].
      * intros Hf. destruct (I3 Hf) as [C _]. discriminate C.
    + destruct (temp_loop ts th true) as [r out] eqn:L.
      injection E as <- ->.
      destruct (IH _ _ _ _ _ L) as (I1 & I2 & I3).
      split; [simpl; now rewrite I1|]. split.
      * intros Hf. rewrite (temp_loop_fail_sticky _ _ _ _ _ L) in Hf.
        discriminate Hf.
      * intros Hf. destruct (I3 Hf) as [C A]. split; [assumption|].
        constructor; [reflexivity | assumption].
Qed.

(** X25: [hold] keeps the temporary set clean when it returns: if no entry
    was None before, none is after, the set has not grown, and when the
    answer comes from the permanent holds (no temporary hold answered
    true) the temporary set is empty. *)
Theorem hold_prunes_released (st : Interpreter) (b : bool) :
  Forall (fun o => is_some o = true) (temp_holds st) ->
  outcome_of hold st = Ok b ->
  Forall (fun o => is_some o = true) (temp_holds (exec hold st))
  /\ (List.length (temp_holds (exec hold st)) <= List.length (temp_holds st))%nat
  /\ (b = false -> temp_holds (exec hold st) = []).
Proof.
  intros Hall. unfold outcome_of, exec, hold.
  destruct (temp_loop (temp_holds st) false false) as [ts [[th fh]|e]] eqn:L;
    [|discriminate].
  destruct (temp_loop_pruned _ Hall _ _ _ _ _ L) as (L1 & L2 & L3).
  cbn [temp_holds with_temp_holds].
  assert (F : Forall (fun o => is_some o = true) (filter is_some ts)).
  { apply Forall_forall. intros o Ho. now apply filter_In in Ho. }
  assert (N : th = false -> filter (@is_some Hold) ts = []).
  { intros Hth. destruct (L3 Hth) as [_ A]. clear -A.
    induction A as [|o l Ho A IH]; [reflexivity|]. simpl. now rewrite Ho. }
  assert (Lf : (List.length (filter (@is_some Hold) ts) <= List.length ts)%nat)
    by apply filter_length_le.
  destruct fh, th; cbn [fst snd temp_holds with_temp_holds with_holds holds];
    try (destruct (perm_loop (holds st)) as [hs r];
         cbn [fst snd temp_holds with_temp_holds with_holds holds]);
    intros Hb.
  - repeat split; [exact F | lia | intros ->; discriminate Hb].
  - repeat split; [exact F | lia | intros _; now apply N].
  - repeat split; [now apply L2 | lia | intros ->; discriminate Hb].
  - repeat split; [now apply L2 | lia |].
    intros _. destruct (L3 eq_refl) as [_ A]. pose proof (L2 eq_refl) as B.
    destruct ts as [|o l]; [reflexivity|].
    inversion A; inversion B; congruence.
Qed.

Lemma hold_prunes_released_witness :
  let st := with_temp_holds [Some (constant_hold false); Some (countdown_hold 0)]
                            fresh_interpreter in
  Forall (fun o => is_some o = true) (temp_holds (exec hold st))
  /\ (List.length (temp_holds (exec hold st)) <= List.length (temp_holds st))%nat
  /\ (false = false -> temp_holds (exec hold st) = []).
Proof.
  apply (hold_prunes_released
           (with_temp_holds [Some (constant_hold false); Some (countdown_hold 0)]
                            fresh_interpreter) false).
  - repeat constructor.
  - reflexivity.
Defined.

(** ** Mode transitions in a row *)

Lemma ensure_step (m : mode_call) (st : Interpreter) :
  outcome_of (ensure m) st = Ok tt
  /\ state (exec (ensure m) st) = target m
  /\ mode_events (exec (ensure m) st)
     = (mode_events st + (if (state st =? target m)%Z then 0 else 1))%nat.
Proof.
  destruct m; unfold ensure, target, ensure_rapid_mode, ensure_program_mode,
    ensure_finished_mode, outcome_of, exec, bind, gets; simpl;
    match goal with
    | |- context [state st =? ?t] => destruct (state st =? t) eqn:E
    end; simpl; repeat split;
    try (apply Z.eqb_eq in E; exact E);
    try (now rewrite Nat.add_0_r);
    unfold mode_events; simpl; rewrite filter_app, length_app; reflexivity.
Qed.

Lemma last_cons {A} (l : list A) (a d : A) : last (a :: l) d = last l a.
Proof.
  revert a d. induction l as [|b l IH]; intros a d; [reflexivity|].
  change (last (a :: b :: l) d) with (last (b :: l) d).
  now rewrite !(IH b).
Qed.

(** X26: along any sequence of [ensure_rapid_mode], [ensure_program_mode]
    and [ensure_finished_mode], the mode events published are as many as
    the mode changes, no more and no fewer, and the mode ends as the last
    call asks. *)
Theorem mode_events_count_changes (ms : list mode_call) (st : Interpreter) :
  mode_events (ensure_all ms st) = (mode_events st + changes (state st) ms)%nat
  /\ state (ensure_all ms st) = last (map target ms) (state st).
Proof.
  revert st. induction ms as [|m ms IH]; intros st.
  - simpl. split; [lia | reflexivity].
  - destruct (ensure_step m st) as (_ & S1 & S2).
    destruct (IH (exec (ensure m) st)) as [I1 I2].
    cbn [ensure_all changes map]. rewrite I1, I2, S1, S2. split; [lia|].
    symmetry. apply last_cons.
Qed.

(** ** The property register, again *)

Lemma lor_after_clear (p m : Z) : Z.lor (Z.land p (Z.lnot m)) m = Z.lor p m.
Proof.
  apply Z.bits_inj'. intros i Hi.
  rewrite !Z.lor_spec, Z.land_spec, Z.lnot_spec by assumption.
  destruct (Z.testbit p i), (Z.testbit m i); reflexivity.
Qed.

Lemma clear_after_lor (p m : Z) :
  Z.land p m = 0 -> Z.land (Z.lor p m) (Z.lnot m) = p.
Proof.
  intros H. apply Z.bits_inj'. intros i Hi.
  assert (B : Z.testbit p i && Z.testbit m i = false)
    by (rewrite <- Z.land_spec, H; apply Z.bits_0).
  rewrite Z.land_spec, Z.lor_spec, Z.lnot_spec by assumption.
  destruct (Z.testbit p i), (Z.testbit m i); first [reflexivity | discriminate B].
Qed.

Lemma lor_same_iff (p m : Z) : Z.lor p m = p <-> Z.land p m = m.
Proof.
  split; intros H; apply Z.bits_inj'; intros i _.
  - assert (B : Z.testbit (Z.lor p m) i = Z.testbit p i) by now rewrite H.
    rewrite Z.lor_spec in B. rewrite Z.land_spec.
    destruct (Z.testbit p i), (Z.testbit m i); first [reflexivity | discriminate B].
  - assert (B : Z.testbit (Z.land p m) i = Z.testbit m i) by now rewrite H.
    rewrite Z.land_spec in B. rewrite Z.lor_spec.
    destruct (Z.testbit p i), (Z.testbit m i); first [reflexivity | discriminate B].
Qed.

(** X27: [toggle_prop] twice leaves the register as it was when no bit of
    the mask was set, and with all bits of the mask set when any was; so
    the pair puts the register back exactly when the bits of the mask were
    all clear or all set. *)
Theorem toggle_prop_twice (m : Z) (st : Interpreter) :
  properties (exec (toggle_prop m) (exec (toggle_prop m) st))
  = (if Z.land (properties st) m =? 0 then properties st
     else Z.lor (properties st) m)
  /\ (properties (exec (toggle_prop m) (exec (toggle_prop m) st)) = properties st
      <-> Z.land (properties st) m = 0 \/ Z.land (properties st) m = m).
Proof.
  assert (E : properties (exec (toggle_prop m) (exec (toggle_prop m) st))
              = if Z.land (properties st) m =? 0 then properties st
                else Z.lor (properties st) m).
  { unfold exec, toggle_prop, bind, is_prop, gets, set_prop, unset_prop, modify.
    cbn [fst snd properties with_properties].
    destruct (Z.land (properties st) m =? 0) eqn:E;
      cbn [negb fst snd properties with_properties].
    - apply Z.eqb_eq in E. rewrite land_lor_same.
      destruct (m =? 0) eqn:Em; cbn [negb fst snd properties with_properties].
      + apply Z.eqb_eq in Em. subst m. now rewrite !Z.lor_0_r.
      + now apply clear_after_lor.
    - rewrite land_lnot_same. cbn [Z.eqb negb fst snd properties with_properties].
      apply lor_after_clear. }
  split; [exact E|]. rewrite E.
  destruct (Z.land (properties st) m =? 0) eqn:C.
  - apply Z.eqb_eq in C. split; auto.
  - apply Z.eqb_neq in C. rewrite lor_same_iff. split; [auto|].
    intros [H|H]; [now elim C | assumption].
Qed.

(** All clear, all set, and one of two set. *)
Example toggle_prop_twice_cases :
  let twice p m :=
    properties (exec (toggle_prop m) (exec (toggle_prop m)
                                           (with_properties p fresh_interpreter))) in
  twice 1 6 = 1 /\ twice 7 6 = 7 /\ twice 4 4 = 4 /\ twice 3 6 = 7.
Proof. repeat split. Qed.

Lemma dispatch_properties_frame (n : code) (args : list value) (st : Interpreter) :
  bound (jog_attr st) = false -> bound (hd VNone args) = false ->
  properties (snd (dispatch n args st)) = properties st.
Proof.
  intros Hj Ha.
  destruct (is_jog n) eqn:J.
  - apply jog_branch_frame; auto.
  - assert (G : n <> COMMAND_FUNCTION -> keeps properties (dispatch n args)).
    { intros H4. destruct n; try congruence; try discriminate J; unfold_handlers;
        try solve [keeps].
      destruct args as [|name [|a t]]; keeps. }
    destruct n; try (apply G; discriminate).
    apply function_branch_frame; auto.
Qed.

(** X28: the property register is changed by [set_prop], [unset_prop] and
    [toggle_prop] alone: no queued command and no realtime command touches
    it, whether it returns or raises, as long as the command calls no
    callable that calls back into the interpreter (the first value of
    FUNCTION, and [self.jog] for the jog codes). *)
Theorem properties_only_by_prop_calls (K : Constants) (R : RealtimeConstants)
        (cmd : value) (values : list value) (st : Interpreter) :
  bound (hd VNone (args_of cmd values)) = false ->
  bound (jog_attr st) = false ->
  properties (exec (command K cmd values) st) = properties st
  /\ (forall rcmd rvalues,
        properties (exec (realtime_command R rcmd rvalues) st) = properties st).
Proof.
  intros Ha Hj. split.
  - unfold exec.
    apply (command_frame properties (fun _ => True)); auto.
    intros n args _ Hb. now apply dispatch_properties_frame.
  - intros rcmd rvalues.
    assert (G : keeps properties (realtime_command R rcmd rvalues)); [|apply G].
    unfold realtime_command. apply keeps_try_except; [|apply keeps_ret].
    destruct (decode_rt R rcmd) as [n|]; [|apply keeps_ret].
    destruct n; unfold dispatch_rt, no_such_method, reset, status; keeps.
Qed.

Lemma properties_only_by_prop_calls_witness :
  let st := with_properties 5 fresh_interpreter in
  properties
    (exec (command sample_constants
                   (VTuple [VInt 350; VFunc "probe" (Returns VNone)]) []) st)
  = properties st
  /\ (forall rcmd rvalues,
        properties (exec (realtime_command sample_realtime rcmd rvalues) st)
        = properties st).
Proof.
  exact (properties_only_by_prop_calls sample_constants sample_realtime
           (VTuple [VInt 350; VFunc "probe" (Returns VNone)]) []
           (with_properties 5 fresh_interpreter) eq_refl eq_refl).
Defined.
